(** * Synthetic e-commerce clickstream generators

    A shallow embedding of [data_generation/backfill_events.py] and
    [data_generation/stream_events.py]: the event factory [_create_event],
    the session simulator [generate_user_session], the repeat-user memory
    (a [deque] with [maxlen=100]), the backfill scheduler with its surge rule
    and weighted session hours, and the streaming loop with its pauses.
    Reading the catalog, the upload and the publisher's transport are input
    and output and stay outside: the catalog is a parameter, the upload
    receives the list the run returns, and the publisher takes every message.

    Conventions of the embedding.
    - Python's implicit random source ([random], [uuid.uuid4], and the wall
      clock of the streaming script) is an explicit oracle: an infinite tape
      of raw naturals with a cursor.  Every library call consumes entries in
      the order the interpreter evaluates them.
    - Exceptions are results: a computation returns [Ret a] or [Raise e]
      together with the state it reached.
    - Prices are exact rationals: the decimal value of the catalog's text.
      Binary floating-point representation error is outside the model.
    - An event is the [dict] the code builds: an association list from keys
      to values, filtered by the final comprehension that removes [None]. *)

From Stdlib Require Import ZArith NArith QArith Qround List String Ascii Bool Lia Lqa Arith.
From Stdlib Require Import Permutation.
Import ListNotations.

Local Open Scope string_scope.
Local Open Scope list_scope.
Local Open Scope Z_scope.

(** ** Exceptions and the state-and-exception monad *)

Inductive exn : Type :=
| IndexError
| ValueError.

Inductive outcome (A : Type) : Type :=
| Ret (a : A)
| Raise (e : exn).

Arguments Ret {A} a.
Arguments Raise {A} e.

Definition M (S A : Type) : Type := S -> outcome A * S.

Definition ret {S A : Type} (a : A) : M S A := fun s => (Ret a, s).

Definition raise {S A : Type} (e : exn) : M S A := fun s => (Raise e, s).

Definition bind {S A B : Type} (m : M S A) (f : A -> M S B) : M S B :=
  fun s =>
    match m s with
    | (Ret a, s') => f a s'
    | (Raise e, s') => (Raise e, s')
    end.

Notation "x <- m ;; k" := (bind m (fun x => k))
  (at level 61, m at next level, right associativity).
Notation "' pat <- m ;; k" := (bind m (fun x => match x with pat => k end))
  (at level 61, pat pattern, m at next level, right associativity).

(** [for x in xs: body] with the loop-carried variables in [st]. *)
Fixpoint for_each {S A St : Type} (xs : list A) (body : A -> St -> M S St)
  (st : St) : M S St :=
  match xs with
  | [] => ret st
  | x :: xs' => st' <- body x st ;; for_each xs' body st'
  end.

(** [range(n)] *)
Definition range (n : Z) : list Z := map Z.of_nat (seq 0 (Z.to_nat n)).

(** ** The random source *)

Record rng : Type := mk_rng { draws : nat -> N; cursor : nat }.

Definition next_raw : M rng N :=
  fun g => (Ret (draws g (cursor g)), mk_rng (draws g) (S (cursor g))).

(** [Random._randbelow(n)] for [n > 0]: a value in [[0, n)]. *)
Definition randbelow (n : N) : M rng N :=
  r <- next_raw ;; ret (r mod n)%N.

(** [random.random()]: a multiple of [2^-53] in [[0, 1)]. *)
Definition random : M rng Q :=
  r <- next_raw ;; ret (Z.of_N (r mod 2 ^ 53)%N # 2 ^ 53).

(** [random.uniform(a, b)] is [a + (b - a) * random()]. *)
Definition uniform (a b : Q) : M rng Q :=
  r <- random ;; ret (a + (b - a) * r)%Q.

(** [random.randint(a, b)]: [randrange(a, b + 1)], empty range is an error. *)
Definition randint (a b : Z) : M rng Z :=
  if b <? a then raise ValueError
  else k <- randbelow (Z.to_N (b - a + 1)) ;; ret (a + Z.of_N k).

(** [random.choice(seq)]: [seq[_randbelow(len(seq))]], [IndexError] when the
    sequence is empty. *)
Definition choice {A : Type} (seq : list A) : M rng A :=
  match seq with
  | [] => raise IndexError
  | _ :: _ =>
      j <- randbelow (N.of_nat (List.length seq)) ;;
      match nth_error seq (N.to_nat j) with
      | Some x => ret x
      | None => raise IndexError
      end
  end.

(** [pool[j] = v] *)
Fixpoint list_set {A : Type} (j : nat) (v : A) (l : list A) : list A :=
  match l, j with
  | [], _ => []
  | _ :: t, O => v :: t
  | h :: t, S j' => h :: list_set j' v t
  end.

(** The selection loop of [random.sample] over a pool of [n] live slots
    (CPython takes this branch for populations of at most 21 elements; a
    cart never holds more than 10):
    [j = randbelow(n - i); result[i] = pool[j]; pool[j] = pool[n - i - 1]]. *)
Fixpoint sample_loop {A : Type} (k : nat) (n : nat) (pool : list A) : M rng (list A) :=
  match k with
  | O => ret []
  | S k' =>
      j <- randbelow (N.of_nat n) ;;
      match nth_error pool (N.to_nat j), nth_error pool (n - 1) with
      | Some x, Some y =>
          rest <- sample_loop k' (n - 1) (list_set (N.to_nat j) y pool) ;;
          ret (x :: rest)
      | _, _ => raise IndexError
      end
  end.

(** [random.sample(population, k)] *)
Definition sample {A : Type} (population : list A) (k : Z) : M rng (list A) :=
  if (k <? 0) || (Z.of_nat (List.length population) <? k) then raise ValueError
  else sample_loop (Z.to_nat k) (List.length population) population.

(** [uuid.uuid4()]: 128 random bits with the version and variant fields set. *)
Definition uuid4 : M rng N :=
  r <- next_raw ;;
  let bits := (r mod 2 ^ 128)%N in
  let bits := N.lor (N.ldiff bits (N.shiftl 0xc000 48)) (N.shiftl 0x8000 48) in
  ret (N.lor (N.ldiff bits (N.shiftl 0xf000 64)) (N.shiftl 4 76)).

(** ** Text rendering of identifiers *)

Definition hex_digit (d : N) : ascii :=
  match d with
  | 0 => "0" | 1 => "1" | 2 => "2" | 3 => "3" | 4 => "4" | 5 => "5"
  | 6 => "6" | 7 => "7" | 8 => "8" | 9 => "9" | 10 => "a" | 11 => "b"
  | 12 => "c" | 13 => "d" | 14 => "e" | _ => "f"
  end%N%char.

(** The [len] lowest hexadecimal digits of [n], most significant first. *)
Fixpoint hex (len : nat) (n : N) (acc : string) : string :=
  match len with
  | O => acc
  | S len' => hex len' (n / 16)%N (String (hex_digit (n mod 16)%N) acc)
  end.

(** [str(uuid)]: the 8-4-4-4-12 form. *)
Definition str_uuid (u : N) : string :=
  (hex 8 (u / 2 ^ 96)%N "" ++ "-" ++ hex 4 (u / 2 ^ 80)%N "" ++ "-" ++
   hex 4 (u / 2 ^ 64)%N "" ++ "-" ++ hex 4 (u / 2 ^ 48)%N "" ++ "-" ++ hex 12 u "")%string.

Fixpoint dec_digits (fuel : nat) (n : N) (acc : string) : string :=
  match fuel with
  | O => acc
  | S fuel' =>
      let acc' := String (hex_digit (n mod 10)%N) acc in
      if (n / 10 =? 0)%N then acc' else dec_digits fuel' (n / 10)%N acc'
  end.

(** [str(n)] for an integer. *)
Definition str_int (z : Z) : string :=
  let n := Z.abs_N z in
  let s := dec_digits (S (N.to_nat (N.log2 n))) n "" in
  if z <? 0 then ("-" ++ s)%string else s.

(** ** Numbers *)

Definition Qltb (x y : Q) : bool := negb (Qle_bool y x).

(** Round half to even to the nearest integer. *)
Definition round_half_even (q : Q) : Z :=
  let f := Qfloor q in
  match (q - inject_Z f ?= 1 # 2)%Q with
  | Lt => f
  | Gt => f + 1
  | Eq => if Z.even f then f else f + 1
  end.

(** [round(x, 2)] *)
Definition round2 (q : Q) : Q := round_half_even (q * 100) # 100.

(** [int(x)]: truncation toward zero. *)
Definition int_of (q : Q) : Z := Z.quot (Qnum q) (Zpos (Qden q)).

(** ** Catalog rows and event payloads *)

(** One row of [products.csv] as [csv.DictReader] yields it: every column is
    text, except that [regular_price] stands for the number [float(...)]
    reads from it. *)
Record Product : Type := mk_product {
  product_id : string;
  product_name : string;
  category : string;
  regular_price : Q;
  avg_rating : string;
  review_count : string;
  in_stock : string
}.

(** Values stored in an event [dict].  [VTime t] is the ISO-8601 text of the
    instant [t] (seconds on the time line of the run). *)
Inductive value : Type :=
| VNone
| VBool (b : bool)
| VInt (z : Z)
| VFloat (q : Q)
| VStr (s : string)
| VTime (t : Z).

Definition event : Type := list (string * value).

Definition is_not_None (kv : string * value) : bool :=
  match snd kv with
  | VNone => false
  | _ => true
  end.

(** [{k: v for k, v in event.items() if v is not None}] *)
Definition drop_None (e : event) : event := filter is_not_None e.

(** [event[key]] when the key is present. *)
Fixpoint get (key : string) (e : event) : option value :=
  match e with
  | [] => None
  | (k, v) :: rest => if String.eqb k key then Some v else get key rest
  end.

(** [x in [...]] on text. *)
Definition in_list (x : string) (l : list string) : bool :=
  existsb (String.eqb x) l.

(** ** The repeat-user memory: [collections.deque(maxlen=...)] *)

(** [d.append(x)] on a bounded deque: append on the right, then drop from
    the left while the bound is exceeded. *)
Definition deque_append {A : Type} (maxlen : nat) (d : list A) (x : A) : list A :=
  let d' := d ++ [x] in
  if (maxlen <? List.length d')%nat then tl d' else d'.


(** ** backfill_events.py *)

Module Backfill.

Definition NUM_DAYS_HISTORY : Z := 90.
Definition AVG_SESSIONS_PER_DAY : Z := 250.

Definition _create_event (session_id user_id source event_type : string)
  (product : Product) (timestamp : Z) : M rng event :=
  r <- random ;;
  let on_sale := Qltb r (25 # 100) in
  sale_price <-
    (if on_sale
     then u <- uniform (7 # 10) (9 # 10) ;; ret (round2 (regular_price product * u))
     else ret (regular_price product)) ;;
  quantity <-
    (if in_list event_type ["purchase"; "add_to_cart"]
     then randint 1 3
     else ret (if event_type =? "return_item" then -1 else 1)%string) ;;
  u <- uuid4 ;;
  rating <-
    (if (event_type =? "submit_review")%string
     then n <- randint 1 5 ;; ret (VInt n)
     else ret VNone) ;;
  let event :=
    [ ("event_id", VStr ("evt-" ++ str_uuid u)%string);
      ("event_timestamp", VTime timestamp);
      ("user_id", VStr user_id);
      ("session_id", VStr session_id);
      ("event_type", VStr event_type);
      ("product_id", VStr (product_id product));
      ("on_sale", VBool on_sale);
      ("sale_price",
        if in_list event_type ["add_to_cart"; "purchase"; "return_item"]
        then VFloat sale_price else VNone);
      ("quantity", VInt quantity);
      ("rating", rating);
      ("source", VStr source) ] in
  ret (drop_None event).

Section Session.

Variable product_catalog : list Product.

(** Lines 76-78: the body of [if random.random() < 0.40]. *)
Definition add_to_cart_attempt (session_id user_id source : string)
  (product : Product) (event_ts : Z) (st : list event * list Product)
  : M rng (list event * list Product) :=
  let '(events, cart) := st in
  if (in_stock product =? "True")%string
  then
    e <- _create_event session_id user_id source "add_to_cart" product event_ts ;;
    ret (events ++ [e], cart ++ [product])
  else ret (events, cart).

(** Lines 69-78: one iteration of the viewing loop. *)
Definition view_step (session_id user_id source : string) (session_timestamp : Z)
  (i : Z) (st : list event * list Product) : M rng (list event * list Product) :=
  let '(events, cart) := st in
  product <- choice product_catalog ;;
  step <- randint 10 60 ;;
  let event_ts := session_timestamp + i * step in
  e <- _create_event session_id user_id source "product_view" product event_ts ;;
  let events := events ++ [e] in
  r <- random ;;
  if Qltb r (40 # 100)
  then add_to_cart_attempt session_id user_id source product event_ts (events, cart)
  else ret (events, cart).

(** Lines 86-89: one iteration of the purchase loop. *)
Definition purchase_step (session_id user_id source : string) (session_timestamp : Z)
  (item : Product) (st : list event * list Product) : M rng (list event * list Product) :=
  let '(events, purchased_items) := st in
  minutes <- randint 5 15 ;;
  let event_ts := session_timestamp + 60 * minutes in
  e <- _create_event session_id user_id source "purchase" item event_ts ;;
  ret (events ++ [e], purchased_items ++ [item]).

(** Lines 81-89: the checkout decision. *)
Definition checkout (session_id user_id source : string) (session_timestamp : Z)
  (events : list event) (cart : list Product) : M rng (list event * list Product) :=
  match cart with
  | [] => ret (events, [])
  | _ :: _ =>
      r <- random ;;
      if Qltb r (30 # 100)
      then
        items_to_buy_count <- randint 1 (Z.of_nat (List.length cart)) ;;
        items_to_buy <- sample cart items_to_buy_count ;;
        for_each items_to_buy
          (purchase_step session_id user_id source session_timestamp) (events, [])
      else ret (events, [])
  end.

(** Lines 92-96: one iteration of the return loop. *)
Definition return_step (session_id user_id source : string) (session_timestamp : Z)
  (item : Product) (events : list event) : M rng (list event) :=
  r <- random ;;
  if Qltb r (8 # 100)
  then
    days <- randint 1 5 ;;
    let event_ts := session_timestamp + 86400 * days in
    e <- _create_event session_id user_id source "return_item" item event_ts ;;
    ret (events ++ [e])
  else ret events.

Definition generate_user_session (session_timestamp : Z) : M rng (list event) :=
  u <- uuid4 ;;
  let session_id := ("session-" ++ str_uuid u)%string in
  n <- randint 1 250 ;;
  let user_id := ("user-" ++ str_int n)%string in
  source <- choice ["google"; "facebook"; "email"; "direct"] ;;
  views <- randint 1 10 ;;
  '(events, cart) <-
    for_each (range views)
      (view_step session_id user_id source session_timestamp) ([], []) ;;
  '(events, purchased_items) <-
    checkout session_id user_id source session_timestamp events cart ;;
  for_each purchased_items
    (return_step session_id user_id source session_timestamp) events.

End Session.

(** [date.weekday()] of the day with proleptic ordinal [ordinal]
    (Monday is 0, Sunday is 6). *)
Definition weekday (ordinal : Z) : Z := (ordinal + 6) mod 7.

(** Line 159. *)
Definition sessions_multiplier (current_day : Z) : Q :=
  if 4 <=? weekday current_day then 15 # 10 else 1.

(** Line 160: the two bounds handed to [random.randint]. *)
Definition num_sessions_bounds (current_day : Z) : Z * Z :=
  let sessions_multiplier := sessions_multiplier current_day in
  (int_of (inject_Z AVG_SESSIONS_PER_DAY * (7 # 10) * sessions_multiplier),
   int_of (inject_Z AVG_SESSIONS_PER_DAY * (13 # 10) * sessions_multiplier)).

Definition num_sessions (current_day : Z) : M rng Z :=
  let '(lo, hi) := num_sessions_bounds current_day in randint lo hi.

End Backfill.

(** ** stream_events.py *)

Module Stream.

Definition PROB_ADD_TO_CART : Q := 40 # 100.
Definition PROB_CHECKOUT : Q := 30 # 100.
Definition PROB_RETURN_ITEM : Q := 8 # 100.
Definition PROB_REPEAT_USER : Q := 25 # 100.

(** [deque(maxlen=100)] *)
Definition maxlen : nat := 100.

(** The script's mutable globals: the random source and the memory. *)
Record world : Type := mk_world {
  gen : rng;
  recent_user_activity : list (string * Product)
}.

(** Run a computation on the random source inside the world. *)
Definition with_rng {A : Type} (m : M rng A) : M world A :=
  fun w =>
    let '(r, g') := m (gen w) in (r, mk_world g' (recent_user_activity w)).

Definition read_memory : M world (list (string * Product)) :=
  fun w => (Ret (recent_user_activity w), w).

(** [recent_user_activity.append(entry)] *)
Definition memory_append (entry : string * Product) : M world unit :=
  fun w =>
    (Ret tt, mk_world (gen w) (deque_append maxlen (recent_user_activity w) entry)).

(** [datetime.datetime.now(datetime.timezone.utc)]: read from the oracle. *)
Definition now : M rng Z := r <- next_raw ;; ret (Z.of_N r).

Definition _create_event (session_id user_id source event_type : string)
  (product : Product) : M rng event :=
  r <- random ;;
  let on_sale := Qltb r (25 # 100) in
  sale_price <-
    (if on_sale
     then u <- uniform (7 # 10) (9 # 10) ;; ret (round2 (regular_price product * u))
     else ret (regular_price product)) ;;
  u <- uuid4 ;;
  timestamp <- now ;;
  rating <-
    (if (event_type =? "submit_review")%string
     then n <- randint 1 5 ;; ret (VInt n)
     else ret VNone) ;;
  let event :=
    [ ("event_id", VStr ("evt-" ++ str_uuid u)%string);
      ("event_timestamp", VTime timestamp);
      ("user_id", VStr user_id);
      ("session_id", VStr session_id);
      ("event_type", VStr event_type);
      ("product_id", VStr (product_id product));
      ("on_sale", VBool on_sale);
      ("sale_price",
        if in_list event_type ["add_to_cart"; "purchase"; "return_item"]
        then VFloat sale_price else VNone);
      ("quantity", VInt (if (event_type =? "return_item")%string then -1 else 1));
      ("rating", rating);
      ("source", VStr source) ] in
  ret (drop_None event).

Section Session.

Variable product_catalog : list Product.

(** Lines 94-99: the body of [if random.random() < PROB_ADD_TO_CART]. *)
Definition add_to_cart_attempt (session_id user_id source : string)
  (product : Product) (st : list event * list Product)
  : M rng (list event * list Product) :=
  let '(events, cart) := st in
  if (in_stock product =? "True")%string
  then
    e <- _create_event session_id user_id source "add_to_cart" product ;;
    ret (events ++ [e], cart ++ [product])
  else
    e <- _create_event session_id user_id source "add_to_cart_failure" product ;;
    ret (events ++ [e], cart).

(** Lines 89-99: one iteration of the viewing loop. *)
Definition view_step (session_id user_id source : string)
  (i : Z) (st : list event * list Product) : M rng (list event * list Product) :=
  let '(events, cart) := st in
  product <- choice product_catalog ;;
  e <- _create_event session_id user_id source "product_view" product ;;
  let events := events ++ [e] in
  r <- random ;;
  if Qltb r PROB_ADD_TO_CART
  then add_to_cart_attempt session_id user_id source product (events, cart)
  else ret (events, cart).

(** Lines 109-111: one iteration of the purchase loop. *)
Definition purchase_step (session_id user_id source : string)
  (item : Product) (st : list event * list Product) : M rng (list event * list Product) :=
  let '(events, purchased_items) := st in
  e <- _create_event session_id user_id source "purchase" item ;;
  ret (events ++ [e], purchased_items ++ [item]).

(** Lines 101-111: abandonment recording and the checkout decision. *)
Definition checkout (session_id user_id source : string)
  (events : list event) (cart : list Product) : M world (list event * list Product) :=
  match cart with
  | [] => ret (events, [])
  | _ :: _ =>
      abandoned <- with_rng (choice cart) ;;
      _ <- memory_append (user_id, abandoned) ;;
      r <- with_rng random ;;
      if Qltb r PROB_CHECKOUT
      then
        items_to_buy_count <- with_rng (randint 1 (Z.of_nat (List.length cart))) ;;
        items_to_buy <- with_rng (sample cart items_to_buy_count) ;;
        with_rng (for_each items_to_buy
                    (purchase_step session_id user_id source) (events, []))
      else ret (events, [])
  end.

(** Lines 114-116: the review decision. *)
Definition review (session_id user_id source : string)
  (events : list event) (purchased_items : list Product) : M rng (list event) :=
  match purchased_items with
  | [] => ret events
  | _ :: _ =>
      r <- random ;;
      if Qltb r (25 # 100)
      then
        item_to_review <- choice purchased_items ;;
        e <- _create_event session_id user_id source "submit_review" item_to_review ;;
        ret (events ++ [e])
      else ret events
  end.

(** Lines 119-121: one iteration of the return loop. *)
Definition return_step (session_id user_id source : string)
  (item : Product) (events : list event) : M rng (list event) :=
  r <- random ;;
  if Qltb r PROB_RETURN_ITEM
  then
    e <- _create_event session_id user_id source "return_item" item ;;
    ret (events ++ [e])
  else ret events.

(** Lines 87-123: the journey of a session whose user is known. *)
Definition browse_and_buy (session_id user_id source : string) : M world (list event) :=
  views <- with_rng (randint 1 10) ;;
  '(events, cart) <-
    with_rng (for_each (range views) (view_step session_id user_id source) ([], [])) ;;
  '(events, purchased_items) <- checkout session_id user_id source events cart ;;
  events <- with_rng (review session_id user_id source events purchased_items) ;;
  with_rng (for_each purchased_items (return_step session_id user_id source) events).

Definition generate_user_session : M world (list event) :=
  u <- with_rng uuid4 ;;
  let session_id := ("session-" ++ str_uuid u)%string in
  source <- with_rng (choice ["google"; "facebook"; "email"; "direct"; "organic_search"]) ;;
  memory <- read_memory ;;
  is_repeat <-
    (match memory with
     | [] => ret false
     | _ :: _ => r <- with_rng random ;; ret (Qltb r PROB_REPEAT_USER)
     end) ;;
  if is_repeat : bool
  then
    '(user_id, prev_product) <- with_rng (choice memory) ;;
    r <- with_rng random ;;
    if Qltb r (50 # 100)
    then
      e <- with_rng (_create_event session_id user_id source "purchase" prev_product) ;;
      ret [e]
    else browse_and_buy session_id user_id source
  else
    n <- with_rng (randint 1 500) ;;
    browse_and_buy session_id ("user-" ++ str_int n)%string source.

(** The body of [while True], run [n] times: the events handed to
    [publish_event], in order.  An exception ends the iteration only. *)
Fixpoint stream (n : nat) (w : world) : list event * world :=
  match n with
  | O => ([], w)
  | S n' =>
      match generate_user_session w with
      | (Ret session_events, w') =>
          let '(later, w'') := stream n' w' in (session_events ++ later, w'')
      | (Raise _, w') => stream n' w'
      end
  end.

(** The main block from a fresh process: the memory starts empty, and the
    script exits before the loop when the catalog is empty. *)
Definition main (n : nat) (g : rng) : list event :=
  match product_catalog with
  | [] => []
  | _ :: _ => fst (stream n (mk_world g []))
  end.

End Session.

End Stream.

(** ** Specification vocabulary *)

(** What a computation establishes from state [s]: [Q] on a returned value
    and final state, [R] on the state an exception leaves behind. *)
Definition post {S A : Type} (m : M S A) (s : S)
  (Q : A -> S -> Prop) (R : S -> Prop) : Prop :=
  match m s with
  | (Ret a, s') => Q a s'
  | (Raise _, s') => R s'
  end.

(** Every value [m] returns satisfies [P], whatever the oracle holds; with
    [R := False] the computation moreover never raises. *)
Definition yields {A : Type} (R : Prop) (m : M rng A) (P : A -> Prop) : Prop :=
  forall g, post m g (fun a _ => P a) (fun _ => R).

(** The same for the streaming script, as a triple over the memory: from a
    memory satisfying [J], every returned value satisfies [P] and leaves a
    memory satisfying [J'], which also holds after an exception. *)
Definition wyields {A : Type} (R : Prop) (J J' : list (string * Product) -> Prop)
  (m : M Stream.world A) (P : A -> Prop) : Prop :=
  forall w, J (Stream.recent_user_activity w) ->
    post m w (fun a w' => P a /\ J' (Stream.recent_user_activity w'))
             (fun w' => R /\ J' (Stream.recent_user_activity w')).

Definition has_type (e : event) (event_type : string) : Prop :=
  get "event_type" e = Some (VStr event_type).

(** The fields an event built for [(session, user, source, type, product)]
    always carries. *)
Record built (session_id user_id source event_type : string) (p : Product)
  (e : event) : Prop := mk_built {
  built_session : get "session_id" e = Some (VStr session_id);
  built_user : get "user_id" e = Some (VStr user_id);
  built_source : get "source" e = Some (VStr source);
  built_type : has_type e event_type;
  built_product : get "product_id" e = Some (VStr (product_id p))
}.

(** The event's [product_id] is the id of a row of the catalog. *)
Definition in_catalog (product_catalog : list Product) (e : event) : Prop :=
  exists pid, get "product_id" e = Some (VStr pid) /\
              In pid (map product_id product_catalog).

(** An event that acquires or gives back goods. *)
Definition is_acquisition (e : event) : Prop :=
  has_type e "add_to_cart" \/ has_type e "purchase" \/ has_type e "return_item".

(** Every purchase and return refers to a product of an earlier
    [add_to_cart] event of the same list. *)
Definition causally_ordered (events : list event) : Prop :=
  forall pre e post,
    events = pre ++ e :: post ->
    has_type e "purchase" \/ has_type e "return_item" ->
    exists a, In a pre /\ has_type a "add_to_cart" /\
              get "product_id" a = get "product_id" e.

(** The session is the single purchase of the repeat-purchase shortcut, for
    a product remembered in [memory]. *)
Definition repeat_purchase_only (memory : list (string * Product))
  (events : list event) : Prop :=
  exists e user_id p,
    events = [e] /\ In (user_id, p) memory /\ has_type e "purchase" /\
    get "user_id" e = Some (VStr user_id) /\
    get "product_id" e = Some (VStr (product_id p)).


(** The event refers to a catalog row whose stock flag reads [True]. *)
Definition refers_to_stocked (product_catalog : list Product) (e : event) : Prop :=
  exists p, In p product_catalog /\ in_stock p = "True" /\
            get "product_id" e = Some (VStr (product_id p)).

Definition timestamp_of (e : event) : option Z :=
  match get "event_timestamp" e with
  | Some (VTime t) => Some t
  | _ => None
  end.

Fixpoint timestamps (events : list event) : list Z :=
  match events with
  | [] => []
  | e :: rest =>
      match timestamp_of e with
      | Some t => t :: timestamps rest
      | None => timestamps rest
      end
  end.

Fixpoint nondecreasing (l : list Z) : bool :=
  match l with
  | a :: (b :: _) as rest => (a <=? b) && nondecreasing rest
  | _ => true
  end.

(** The offsets from the session start, in seconds, within which the
    backfill script stamps an event of the given type. *)
Definition backfill_window (event_type : string) : Z * Z :=
  if in_list event_type ["product_view"; "add_to_cart"] then (0, 540)
  else if (event_type =? "purchase")%string then (300, 900)
  else (86400, 432000).

Definition stamped_in_window (session_timestamp : Z) (e : event) : Prop :=
  exists event_type t,
    has_type e event_type /\ timestamp_of e = Some t /\
    session_timestamp + fst (backfill_window event_type) <= t
      <= session_timestamp + snd (backfill_window event_type).

(** The quantity an event of the given type carries. *)
Definition quantity_rule (backfill : bool) (event_type : string) (e : event) : Prop :=
  exists q, get "quantity" e = Some (VInt q) /\
    if in_list event_type ["purchase"; "add_to_cart"]
    then (if backfill then 1 <= q <= 3 else q = 1)
    else if (event_type =? "return_item")%string then q = -1 else q = 1.


(** The dictionary both factories build, after the [None] entries are
    removed. *)
Definition payload (event_id : string) (timestamp : Z)
  (user_id session_id event_type : string) (p : Product) (on_sale : bool)
  (sale_price : Q) (quantity : Z) (rating : value) (source : string) : event :=
  drop_None
    [ ("event_id", VStr event_id);
      ("event_timestamp", VTime timestamp);
      ("user_id", VStr user_id);
      ("session_id", VStr session_id);
      ("event_type", VStr event_type);
      ("product_id", VStr (product_id p));
      ("on_sale", VBool on_sale);
      ("sale_price",
        if in_list event_type ["add_to_cart"; "purchase"; "return_item"]
        then VFloat sale_price else VNone);
      ("quantity", VInt quantity);
      ("rating", rating);
      ("source", VStr source) ].

(** How the factories compute [sale_price] from the sale flag. *)
Definition price_drawn (p : Product) (on_sale : bool) (sale_price : Q) : Prop :=
  if on_sale
  then exists factor, (7 # 10 <= factor <= 9 # 10)%Q /\
                      sale_price = round2 (regular_price p * factor)
  else sale_price = regular_price p.

(** How the factories compute [rating]. *)
Definition rating_drawn (event_type : string) (rating : value) : Prop :=
  if (event_type =? "submit_review")%string
  then exists n, rating = VInt n /\ 1 <= n <= 5
  else rating = VNone.

(** Everything known about an event built by a factory: [backfill] selects
    the script, [timestamp] is the instant the backfill factory is given. *)
Definition factory_event (backfill : bool) (session_id user_id source event_type : string)
  (p : Product) (timestamp : option Z) (e : event) : Prop :=
  exists event_id stamp on_sale sale_price quantity rating,
    e = payload event_id stamp user_id session_id event_type p on_sale
          sale_price quantity rating source /\
    (forall t, timestamp = Some t -> stamp = t) /\
    price_drawn p on_sale sale_price /\
    rating_drawn event_type rating /\
    (if backfill
     then if in_list event_type ["purchase"; "add_to_cart"]
          then 1 <= quantity <= 3
          else quantity = (if (event_type =? "return_item")%string then -1 else 1)
     else quantity = (if (event_type =? "return_item")%string then -1 else 1)).

(** Product [p] is the subject of an [add_to_cart] event of [events]. *)
Definition carted (events : list event) (p : Product) : Prop :=
  exists a, In a events /\ has_type a "add_to_cart" /\
            get "product_id" a = Some (VStr (product_id p)).

(** What the backfill session emits: the event was built by the factory
    for a catalog row, with a type, stock flag and timestamp that fit one of
    the four emitting statements. *)
Definition backfill_event (product_catalog : list Product)
  (session_id user_id source : string) (session_timestamp : Z) (e : event) : Prop :=
  exists event_type p t,
    factory_event true session_id user_id source event_type p (Some t) e /\
    In p product_catalog /\
    In event_type ["product_view"; "add_to_cart"; "purchase"; "return_item"] /\
    (event_type <> "product_view" -> in_stock p = "True") /\
    session_timestamp + fst (backfill_window event_type) <= t
      <= session_timestamp + snd (backfill_window event_type).

(** What the streaming session emits while browsing and buying. *)
Definition stream_event (product_catalog : list Product)
  (session_id user_id source : string) (e : event) : Prop :=
  exists event_type p,
    factory_event false session_id user_id source event_type p None e /\
    In p product_catalog /\
    In event_type ["product_view"; "add_to_cart"; "add_to_cart_failure";
                   "purchase"; "submit_review"; "return_item"].

(** The cart holds stocked catalog rows that were added by an event. *)
Definition cart_ok (product_catalog : list Product) (events : list event)
  (cart : list Product) : Prop :=
  forall p, In p cart ->
    In p product_catalog /\ in_stock p = "True" /\ carted events p.

(** The memory remembers catalog rows only. *)
Definition remembers_catalog (product_catalog : list Product)
  (memory : list (string * Product)) : Prop :=
  Forall (fun entry => In (snd entry) product_catalog) memory.

Definition backfill_sources : list string := ["google"; "facebook"; "email"; "direct"].

Definition stream_sources : list string :=
  ["google"; "facebook"; "email"; "direct"; "organic_search"].

(** The result of a backfill session. *)
Definition backfill_session (product_catalog : list Product) (session_timestamp : Z)
  (events : list event) : Prop :=
  exists session_id user_id source,
    In source backfill_sources /\
    Forall (backfill_event product_catalog session_id user_id source session_timestamp)
      events /\
    causally_ordered events.

(** The result of a streaming session started with [memory]: a browsing
    journey, or the single purchase of the repeat-purchase shortcut. *)
Definition stream_session (product_catalog : list Product)
  (memory : list (string * Product)) (events : list event) : Prop :=
  exists session_id user_id source,
    In source stream_sources /\
    ((Forall (stream_event product_catalog session_id user_id source) events /\
      causally_ordered events) \/
     (exists e p, events = [e] /\ In (user_id, p) memory /\
                  factory_event false session_id user_id source "purchase" p None e)).

(** The week from Monday 2024-01-01 to Sunday 2024-01-07, as proleptic
    ordinals ([date.toordinal()]). *)
Definition sample_week : list Z :=
  [738886; 738887; 738888; 738889; 738890; 738891; 738892].

(** The days of a list on which the scheduler boosts the session count. *)
Definition surge_days (days : list Z) : list Z :=
  filter (fun day => Qeq_bool (Backfill.sessions_multiplier day) (15 # 10)) days.

(** The event names [source] among the given ones. *)
Definition source_among (sources : list string) (e : event) : Prop :=
  exists source, get "source" e = Some (VStr source) /\ In source sources.

(** ** Sample data *)

Definition laptop : Product :=
  mk_product "SKU-LAP-1A2B" "Acme Pro 100" "Laptops" (1999 # 100) "4.5" "120" "True".

Definition television : Product :=
  mk_product "SKU-TVS-9F00" "Acme Vision-Max 55-inch 4K TV" "TVs" (500 # 1) "3.9" "10" "False".

Definition sample_catalog : list Product := [laptop; television].

(** An oracle that reads [tape] and then zeros. *)
Definition oracle (tape : list N) : rng := mk_rng (fun i => nth i tape 0%N) 0.

(** The value returned, if any. *)
Definition returned {S A : Type} (r : outcome A * S) : option A :=
  match fst r with
  | Ret a => Some a
  | Raise _ => None
  end.

(** A fresh streaming process, and the same process after one session. *)
Definition fresh_world : Stream.world := Stream.mk_world (oracle []) [].

Definition after_first_session : Stream.world :=
  snd (Stream.stream sample_catalog 1 fresh_world).


(** A tape for a backfill session of three views that are neither on sale
    nor added to the cart, staggered by 60 and then 10 seconds per step:
    per view, the draws are the product, the step, the sale flag, the event
    id and the add-to-cart decision. *)
Definition staggered_tape : list N :=
  let half := (2 ^ 52)%N in
  [ 0; 0; 0; 2;
    0; 0; half; 0; half;
    0; 50; half; 0; half;
    0; 0; half; 0; half ]%N.

(** ** Further vocabulary *)


(** The keys of an event of the given type, in the order of the dictionary. *)
Definition expected_keys (event_type : string) : list string :=
  ["event_id"; "event_timestamp"; "user_id"; "session_id"; "event_type";
   "product_id"; "on_sale"]
  ++ (if in_list event_type ["add_to_cart"; "purchase"; "return_item"]
      then ["sale_price"] else [])
  ++ ["quantity"]
  ++ (if (event_type =? "submit_review")%string then ["rating"] else [])
  ++ ["source"].

(** [event.keys()] *)
Definition keys (e : event) : list string := map fst e.

(** The text in [e["event_type"]] equals [event_type]. *)
Definition type_is (event_type : string) (e : event) : bool :=
  match get "event_type" e with
  | Some (VStr t) => String.eqb t event_type
  | _ => false
  end.

(** The number of events of one type. *)
Definition count_type (event_type : string) (events : list event) : nat :=
  List.length (filter (type_is event_type) events).

(** The list begins with a [product_view] event. *)
Definition starts_with_view (events : list event) : Prop :=
  exists first rest, events = first :: rest /\ has_type first "product_view".

(** The funnel of a backfill session: 1 to 10 views, no more cart additions
    than views, no more purchases than additions, no more returns than
    purchases, and no event of any other type. *)
Definition backfill_funnel (events : list event) : Prop :=
  let views := count_type "product_view" events in
  let additions := count_type "add_to_cart" events in
  let purchases := count_type "purchase" events in
  let returns := count_type "return_item" events in
  (1 <= views <= 10)%nat /\ (additions <= views)%nat /\
  (purchases <= additions)%nat /\ (returns <= purchases)%nat /\
  List.length events = (views + additions + purchases + returns)%nat /\
  starts_with_view events.

(** The funnel of a streaming session that browses: as for backfill, with a
    failure event for each refused addition and at most one review, given
    only after a purchase. *)
Definition stream_funnel (events : list event) : Prop :=
  let views := count_type "product_view" events in
  let additions := count_type "add_to_cart" events in
  let failures := count_type "add_to_cart_failure" events in
  let purchases := count_type "purchase" events in
  let reviews := count_type "submit_review" events in
  let returns := count_type "return_item" events in
  (1 <= views <= 10)%nat /\ (additions + failures <= views)%nat /\
  (purchases <= additions)%nat /\ (reviews <= 1)%nat /\
  (reviews <= purchases)%nat /\ (returns <= purchases)%nat /\
  List.length events
    = (views + additions + failures + purchases + reviews + returns)%nat /\
  starts_with_view events.

(** The six event types the scripts emit. *)
Definition event_types : list string :=
  ["product_view"; "add_to_cart"; "add_to_cart_failure"; "purchase";
   "submit_review"; "return_item"].

(** The numbers of events of each type, which add up to the whole list. *)
Definition tally (events : list event)
  (views additions failures purchases reviews returns : nat) : Prop :=
  count_type "product_view" events = views /\
  count_type "add_to_cart" events = additions /\
  count_type "add_to_cart_failure" events = failures /\
  count_type "purchase" events = purchases /\
  count_type "submit_review" events = reviews /\
  count_type "return_item" events = returns /\
  List.length events
    = (views + additions + failures + purchases + reviews + returns)%nat.

(** One if the two type names agree, else zero. *)
Definition one_if (t event_type : string) : nat :=
  if String.eqb t event_type then 1%nat else 0%nat.

(** ** The main block of backfill_events.py *)

Module BackfillMain.

(** The loop of [bisect.bisect_right(a, x, lo, hi)]:
    [while lo < hi: mid = (lo + hi) // 2;
     if x < a[mid]: hi = mid else: lo = mid + 1]. *)
Fixpoint bisect_loop (fuel : nat) (a : list Q) (x : Q) (lo hi : nat) : nat :=
  match fuel with
  | O => lo
  | S fuel' =>
      if (lo <? hi)%nat
      then
        let mid := ((lo + hi) / 2)%nat in
        if Qltb x (nth mid a 0%Q)
        then bisect_loop fuel' a x lo mid
        else bisect_loop fuel' a x (mid + 1)%nat hi
      else lo
  end.

(** The interval halves at each turn, so [hi - lo] turns are enough. *)
Definition bisect (a : list Q) (x : Q) (lo hi : nat) : nat :=
  bisect_loop (hi - lo) a x lo hi.

(** [itertools.accumulate(weights)] *)
Fixpoint accumulate_from (total : Z) (weights : list Z) : list Z :=
  match weights with
  | [] => []
  | w :: rest => (total + w) :: accumulate_from (total + w) rest
  end.

Definition accumulate (weights : list Z) : list Z := accumulate_from 0 weights.

(** [random.choices(population, weights=weights, k=1)[0]] *)
Definition choices1 {A : Type} (population : list A) (weights : list Z) : M rng A :=
  let n := List.length population in
  let cum_weights := accumulate weights in
  if negb (List.length cum_weights =? n)%nat then raise ValueError
  else
    match rev cum_weights with
    | [] => raise IndexError
    | total :: _ =>
        if total <=? 0 then raise ValueError
        else
          r <- random ;;
          let i := bisect (map inject_Z cum_weights) (r * inject_Z total) 0 (n - 1) in
          match nth_error population i with
          | Some x => ret x
          | None => raise IndexError
          end
    end.

(** Line 150: [hours = list(range(24))]. *)
Definition hours : list Z := range 24.

(** Line 152: [weights = [1]*8 + [2]*4 + [4]*4 + [8]*6 + [2]*2]. *)
Definition weights : list Z :=
  repeat 1 8 ++ repeat 2 4 ++ repeat 4 4 ++ repeat 8 6 ++ repeat 2 2.

(** The first second of the day with the given ordinal, on the time line
    of the run. *)
Definition midnight (ordinal : Z) : Z := 86400 * ordinal.

(** Lines 164-167: the start of one session on [current_day]. *)
Definition session_start_time (current_day : Z) : M rng Z :=
  session_hour <- choices1 hours weights ;;
  minute <- randint 0 59 ;;
  second <- randint 0 59 ;;
  ret (midnight current_day + 3600 * session_hour + 60 * minute + second).

Section Main.

Variable product_catalog : list Product.

(** Lines 162-168: one turn of the loop over the sessions of a day. *)
Definition session_turn (current_day : Z) (_ : Z) (all_historical_events : list event)
  : M rng (list event) :=
  session_start_time <- session_start_time current_day ;;
  events <- Backfill.generate_user_session product_catalog session_start_time ;;
  ret (all_historical_events ++ events).

(** Lines 156-168: one turn of the loop over the days. *)
Definition day_turn (today : Z) (day : Z) (all_historical_events : list event)
  : M rng (list event) :=
  let current_day := today - day in
  num_sessions <- Backfill.num_sessions current_day ;;
  for_each (range num_sessions) (session_turn current_day) all_historical_events.

(** [range(n, 0, -1)] *)
Definition range_down (n : Z) : list Z := map (fun k => n - k) (range n).

(** Lines 146-168: the events handed to the upload, for a process started
    on the day with ordinal [today]. *)
Definition main (today : Z) : M rng (list event) :=
  for_each (range_down Backfill.NUM_DAYS_HISTORY) (day_turn today) [].

End Main.

End BackfillMain.







(** ** The pacing of stream_events.py *)

Module StreamPacing.

(** [datetime.datetime.now().hour]: the local hour, read from the oracle. *)
Definition local_hour : M rng Z := r <- next_raw ;; ret (Z.of_N (r mod 24)).

Definition get_current_sleep_time : M rng Q :=
  hour <- local_hour ;;
  if (18 <=? hour) && (hour <=? 22)
  then uniform (1 # 10) (5 # 10)
  else uniform (8 # 10) (25 # 10).

(** The streaming process: the state of the sessions, the messages handed
    to the publisher and the seconds slept. *)
Record process : Type := mk_process {
  state : Stream.world;
  published : list event;
  slept : Q
}.

Definition in_world {A : Type} (m : M Stream.world A) : M process A :=
  fun p =>
    let '(result, w) := m (state p) in
    (result, mk_process w (published p) (slept p)).

(** [publish_event(event_data)], with a publisher that takes every message. *)
Definition publish_event (event_data : event) : M process unit :=
  fun p => (Ret tt, mk_process (state p) (published p ++ [event_data]) (slept p)).

(** [time.sleep(seconds)] *)
Definition sleep (seconds : Q) : M process unit :=
  fun p => (Ret tt, mk_process (state p) (published p) (slept p + seconds)%Q).

Section Main.

Variable product_catalog : list Product.

(** Lines 165-171: the body of [try]. *)
Definition turn : M process unit :=
  session_events <- in_world (Stream.generate_user_session product_catalog) ;;
  for_each session_events
    (fun event _ =>
       _ <- publish_event event ;;
       seconds <- in_world (Stream.with_rng get_current_sleep_time) ;;
       sleep seconds) tt.

(** Lines 163-177: [while True], run [n] times; an exception is answered
    by a pause of 5 seconds. *)
Fixpoint loop (n : nat) (p : process) : process :=
  match n with
  | O => p
  | S n' =>
      match turn p with
      | (Ret _, p') => loop n' p'
      | (Raise _, p') => loop n' (snd (sleep 5 p'))
      end
  end.

(** Lines 158-177: the process after [n] turns, none if no catalog is loaded. *)
Definition main (n : nat) (g : rng) : process :=
  let start := mk_process (Stream.mk_world g []) [] 0 in
  match product_catalog with
  | [] => start
  | _ :: _ => loop n start
  end.

End Main.

End StreamPacing.

(** A user id the scripts make up for a new user among [population]. *)
Definition new_user (population : Z) (user_id : string) : Prop :=
  exists n, 1 <= n <= population /\ user_id = ("user-" ++ str_int n)%string.

(** Every event names a user among [population]. *)
Definition users_among (population : Z) (events : list event) : Prop :=
  Forall (fun e => exists user_id,
                     get "user_id" e = Some (VStr user_id) /\
                     new_user population user_id) events.

(** The memory remembers users among 500 only. *)
Definition remembers_users (memory : list (string * Product)) : Prop :=
  Forall (fun entry => new_user 500 (fst entry)) memory.


(** The seconds of a list of pauses. *)
Definition total (pauses : list Q) : Q := fold_right Qplus 0%Q pauses.

(** A pause of the streaming loop after an event. *)
Definition pause (t : Q) : Prop := (1 # 10 <= t)%Q /\ (t <= 25 # 10)%Q.

(** The process after a step that published [events]: it slept one pause
    after each of them, and nothing else. *)
Definition paced (events : list event) (p p' : StreamPacing.process) : Prop :=
  StreamPacing.published p' = StreamPacing.published p ++ events /\
  exists pauses,
    List.length pauses = List.length events /\
    Forall pause pauses /\
    (StreamPacing.slept p' == StreamPacing.slept p + total pauses)%Q.

(** ** The products of a session *)

(** The product ids of the events of one type, in the order of the events. *)
Definition products_of (event_type : string) (events : list event) : list string :=
  flat_map (fun e => if type_is event_type e
                     then match get "product_id" e with
                          | Some (VStr pid) => [pid]
                          | _ => []
                          end
                     else []) events.

(** [xs] holds no element more often than [ys] does. *)
Definition included {A : Type} (xs ys : list A) : Prop :=
  exists rest, Permutation (xs ++ rest) ys.

(** Product by product, a session returns and reviews no more than it
    purchased, and purchases no more than it added to the cart. *)
Definition product_funnel (events : list event) : Prop :=
  included (products_of "return_item" events) (products_of "purchase" events) /\
  included (products_of "submit_review" events) (products_of "purchase" events) /\
  included (products_of "purchase" events) (products_of "add_to_cart" events).

(** The product ids of the additions, purchases, reviews and returns. *)
Definition ledger (events : list event)
  (additions purchases reviews returns : list string) : Prop :=
  products_of "add_to_cart" events = additions /\
  products_of "purchase" events = purchases /\
  products_of "submit_review" events = reviews /\
  products_of "return_item" events = returns.

Definition product_if (t event_type : string) (p : Product) : list string :=
  if String.eqb t event_type then [product_id p] else [].

(** * Verification *)

(** ** Rules for [post] and [yields] *)


Lemma post_bind {S A B : Type} (m : M S A) (f : A -> M S B) (s : S) Q R :
  post m s (fun a s' => post (f a) s' Q R) R -> post (bind m f) s Q R.
Proof.
  unfold post, bind. destruct (m s) as [[a | e] s']; intros H; exact H.
Qed.

Lemma post_weaken {S A : Type} (m : M S A) (s : S) (Q Q' : A -> S -> Prop)
  (R R' : S -> Prop) :
  post m s Q R ->
  (forall a s', Q a s' -> Q' a s') -> (forall s', R s' -> R' s') ->
  post m s Q' R'.
Proof.
  unfold post. destruct (m s) as [[a | e] s']; intros H HQ HR; auto.
Qed.

Lemma post_returned {S A : Type} (m : M S A) (s s' : S) (a : A) Q R :
  post m s Q R -> m s = (Ret a, s') -> Q a s'.
Proof. unfold post. intros H E. rewrite E in H. exact H. Qed.

Lemma yields_ret {A : Type} (R : Prop) (a : A) (P : A -> Prop) :
  P a -> yields R (ret a) P.
Proof. intros H g. exact H. Qed.

Lemma yields_raise {A : Type} (R : Prop) (e : exn) (P : A -> Prop) :
  R -> yields R (raise e) P.
Proof. intros H g. exact H. Qed.

Lemma yields_bind {A B : Type} (R : Prop) (m : M rng A) (f : A -> M rng B)
  (P : A -> Prop) (Q : B -> Prop) :
  yields R m P -> (forall a, P a -> yields R (f a) Q) -> yields R (bind m f) Q.
Proof.
  intros Hm Hf g. apply post_bind.
  eapply post_weaken; [apply Hm | | auto].
  intros a g' Ha. apply Hf, Ha.
Qed.

Lemma yields_weaken {A : Type} (R : Prop) (m : M rng A) (P Q : A -> Prop) :
  yields R m P -> (forall a, P a -> Q a) -> yields R m Q.
Proof.
  intros Hm HPQ g. eapply post_weaken; [apply Hm | | auto].
  intros a g' Ha. apply HPQ, Ha.
Qed.

Lemma yields_partial {A : Type} (R : Prop) (m : M rng A) (P : A -> Prop) :
  yields False m P -> yields R m P.
Proof.
  intros Hm g. eapply post_weaken; [apply Hm | auto | intros _ []].
Qed.

Lemma yields_returned {A : Type} (R : Prop) (m : M rng A) (P : A -> Prop) g g' a :
  yields R m P -> m g = (Ret a, g') -> P a.
Proof. intros Hm E. exact (post_returned _ _ _ _ _ _ (Hm g) E). Qed.

Lemma yields_total {A : Type} (m : M rng A) (P : A -> Prop) g :
  yields False m P -> exists a g', m g = (Ret a, g') /\ P a.
Proof.
  intros Hm. specialize (Hm g). unfold post in Hm.
  destruct (m g) as [[a | e] g']; [eauto | contradiction].
Qed.

Lemma yields_for_each {A St : Type} (R : Prop) (I : St -> Prop)
  (body : A -> St -> M rng St) (xs : list A) :
  (forall x st, In x xs -> I st -> yields R (body x st) I) ->
  forall st, I st -> yields R (for_each xs body st) I.
Proof.
  induction xs as [| x xs IH]; intros Hbody st Hst; simpl.
  - apply yields_ret, Hst.
  - eapply yields_bind.
    + apply Hbody; [left; reflexivity | exact Hst].
    + intros st' Hst'. apply IH; [| exact Hst'].
      intros y st0 Hy. apply Hbody. right; exact Hy.
Qed.

(** ** The library calls *)

Lemma yields_next_raw (R : Prop) : yields R next_raw (fun _ => True).
Proof. intros g. exact I. Qed.

Lemma yields_randbelow (R : Prop) (n : N) :
  (0 < n)%N -> yields R (randbelow n) (fun k => (k < n)%N).
Proof.
  intros Hn g. unfold randbelow, post, bind, next_raw, ret.
  apply N.mod_lt. lia.
Qed.

Lemma yields_random (R : Prop) :
  yields R random (fun r => (0 <= r)%Q /\ (r < 1)%Q).
Proof.
  intros g. unfold random, post, bind, next_raw, ret.
  set (k := (draws g (cursor g) mod 2 ^ 53)%N).
  assert (Hk : (k < 2 ^ 53)%N) by (apply N.mod_lt; discriminate).
  unfold Qle, Qlt. simpl Qnum. simpl Qden.
  change (Z.pos (2 ^ 53)) with (2 ^ 53)%Z.
  assert (Z.of_N k < 2 ^ 53)%Z.
  { change (2 ^ 53)%Z with (Z.of_N (2 ^ 53)). lia. }
  lia.
Qed.

Lemma yields_uniform (R : Prop) (a b : Q) :
  (a <= b)%Q ->
  yields R (uniform a b)
    (fun u => exists r, (0 <= r)%Q /\ (r < 1)%Q /\ u = (a + (b - a) * r)%Q).
Proof.
  intros Hab. unfold uniform. eapply yields_bind; [apply yields_random |].
  intros r [H0 H1]. apply yields_ret. exists r. auto.
Qed.

Lemma yields_randint (R : Prop) (a b : Z) :
  (b < a -> R) -> yields R (randint a b) (fun z => a <= z <= b).
Proof.
  intros HR. unfold randint. destruct (b <? a) eqn:E.
  - apply yields_raise, HR. apply Z.ltb_lt, E.
  - apply Z.ltb_ge in E.
    eapply yields_bind.
    + apply (yields_randbelow R).
      change 0%N with (Z.to_N 0). apply Z2N.inj_lt; lia.
    + intros k Hk. cbv beta in Hk. apply yields_ret. lia.
Qed.

Lemma yields_choice {A : Type} (R : Prop) (seq : list A) :
  (seq = [] -> R) -> yields R (choice seq) (fun x => In x seq).
Proof.
  intros HR. unfold choice. destruct seq as [| x0 rest] eqn:E.
  - apply yields_raise, HR. reflexivity.
  - rewrite <- E.
    assert (Hlen : (0 < N.of_nat (List.length seq))%N).
    { subst seq. simpl List.length. rewrite Nat2N.inj_succ. apply N.lt_0_succ. }
    eapply yields_bind; [apply (yields_randbelow R), Hlen |].
    intros j Hj. destruct (nth_error seq (N.to_nat j)) as [x |] eqn:Hn.
    + apply yields_ret. eapply nth_error_In, Hn.
    + apply nth_error_None in Hn. cbv beta in Hj. lia.
Qed.

Lemma yields_uuid4 (R : Prop) : yields R uuid4 (fun _ => True).
Proof. intros g. exact I. Qed.

Lemma In_list_set {A : Type} (j : nat) (v x : A) (l : list A) :
  In x (list_set j v l) -> x = v \/ In x l.
Proof.
  revert j. induction l as [| h t IH]; intros [| j]; simpl; auto.
  - intros [<- | H]; auto.
  - intros [<- | H]; auto. apply IH in H. tauto.
Qed.

Lemma length_list_set {A : Type} (j : nat) (v : A) (l : list A) :
  List.length (list_set j v l) = List.length l.
Proof.
  revert j. induction l as [| h t IH]; intros [| j]; simpl; auto.
Qed.

Lemma yields_sample_loop {A : Type} (R : Prop) (population : list A) (k : nat) :
  forall n pool,
    (k <= n <= List.length pool)%nat ->
    (forall x, In x pool -> In x population) ->
    yields R (sample_loop k n pool)
      (fun l => List.length l = k /\ forall x, In x l -> In x population).
Proof.
  induction k as [| k IH]; intros n pool Hn Hpool; simpl.
  - apply yields_ret. split; [reflexivity | intros x []].
  - eapply yields_bind; [apply (yields_randbelow R); lia |].
    intros j Hj. cbv beta in Hj.
    destruct (nth_error pool (N.to_nat j)) as [x |] eqn:Hx.
    2: { apply nth_error_None in Hx. lia. }
    destruct (nth_error pool (n - 1)) as [y |] eqn:Hy.
    2: { apply nth_error_None in Hy. lia. }
    eapply yields_bind.
    + apply IH.
      * rewrite length_list_set. lia.
      * intros z Hz. apply In_list_set in Hz. destruct Hz as [-> | Hz].
        -- apply Hpool. eapply nth_error_In, Hy.
        -- apply Hpool, Hz.
    + intros rest [Hlen Hrest]. apply yields_ret. split.
      * simpl. rewrite Hlen. reflexivity.
      * intros z [<- | Hz]; [| apply Hrest, Hz].
        apply Hpool. eapply nth_error_In, Hx.
Qed.

Lemma yields_sample {A : Type} (R : Prop) (population : list A) (k : Z) :
  (~ 0 <= k <= Z.of_nat (List.length population) -> R) ->
  yields R (sample population k)
    (fun l => Z.of_nat (List.length l) = k /\ forall x, In x l -> In x population).
Proof.
  intros HR. unfold sample.
  destruct ((k <? 0) || (Z.of_nat (List.length population) <? k)) eqn:E.
  - apply yields_raise, HR. apply orb_true_iff in E. lia.
  - apply orb_false_iff in E. destruct E as [E1 E2].
    apply Z.ltb_ge in E1, E2.
    eapply yields_weaken.
    + apply (yields_sample_loop R population); [lia | auto].
    + intros l [Hlen Hl]. split; [lia | exact Hl].
Qed.

(** ** Rounding *)







(** ** The event factories *)

Lemma yields_price (R : Prop) (p : Product) (on_sale : bool) :
  yields R
    (if on_sale
     then u <- uniform (7 # 10) (9 # 10) ;; ret (round2 (regular_price p * u))
     else ret (regular_price p))
    (price_drawn p on_sale).
Proof.
  destruct on_sale; simpl.
  - eapply yields_bind; [apply yields_uniform; lra |].
    intros u (r & H0 & H1 & ->). apply yields_ret.
    exists ((7 # 10) + ((9 # 10) - (7 # 10)) * r)%Q. split; [split; lra | reflexivity].
  - apply yields_ret. reflexivity.
Qed.

Lemma yields_rating (R : Prop) (event_type : string) :
  yields R
    (if (event_type =? "submit_review")%string
     then n <- randint 1 5 ;; ret (VInt n)
     else ret VNone)
    (rating_drawn event_type).
Proof.
  unfold rating_drawn. destruct (event_type =? "submit_review")%string.
  - eapply yields_bind; [apply yields_randint; lia |].
    intros n Hn. apply yields_ret. exists n. auto.
  - apply yields_ret. reflexivity.
Qed.

Lemma backfill_create_event_shape (R : Prop) session_id user_id source event_type p ts :
  yields R (Backfill._create_event session_id user_id source event_type p ts)
    (factory_event true session_id user_id source event_type p (Some ts)).
Proof.
  unfold Backfill._create_event.
  eapply yields_bind; [apply yields_random |]. intros r _.
  eapply yields_bind; [apply yields_price |]. intros sale_price Hprice.
  eapply yields_bind with
    (P := fun q => if in_list event_type ["purchase"; "add_to_cart"]
                   then 1 <= q <= 3
                   else q = (if (event_type =? "return_item")%string then -1 else 1)).
  { destruct (in_list event_type ["purchase"; "add_to_cart"]).
    - apply yields_randint. lia.
    - apply yields_ret. reflexivity. }
  intros quantity Hq.
  eapply yields_bind; [apply yields_uuid4 |]. intros u _.
  eapply yields_bind; [apply yields_rating |]. intros rating Hrating.
  apply yields_ret.
  exists ("evt-" ++ str_uuid u)%string, ts, (Qltb r (25 # 100)), sale_price, quantity, rating.
  split; [reflexivity |]. split; [intros t [= ->]; reflexivity |]. auto.
Qed.

Lemma stream_create_event_shape (R : Prop) session_id user_id source event_type p :
  yields R (Stream._create_event session_id user_id source event_type p)
    (factory_event false session_id user_id source event_type p None).
Proof.
  unfold Stream._create_event.
  eapply yields_bind; [apply yields_random |]. intros r _.
  eapply yields_bind; [apply yields_price |]. intros sale_price Hprice.
  eapply yields_bind; [apply yields_uuid4 |]. intros u _.
  eapply yields_bind; [apply (yields_bind R _ _ _ _ (yields_next_raw R));
                       intros raw _; apply (yields_ret R _ (fun _ => True)); exact I |].
  intros stamp _.
  eapply yields_bind; [apply yields_rating |]. intros rating Hrating.
  apply yields_ret.
  exists ("evt-" ++ str_uuid u)%string, stamp, (Qltb r (25 # 100)), sale_price,
    (if (event_type =? "return_item")%string then -1 else 1), rating.
  split; [reflexivity |]. split; [intros t [=] |]. auto.
Qed.

(** *** Reading a payload *)

Lemma get_drop_None (key : string) (v : value) (e : event) :
  get key e = Some v -> v <> VNone -> get key (drop_None e) = Some v.
Proof.
  intros Hget Hv. induction e as [| [k x] rest IH]; simpl in *; [discriminate |].
  destruct (k =? key)%string eqn:Ek.
  - injection Hget as ->. unfold is_not_None. simpl.
    destruct v; try contradiction; simpl; rewrite Ek; reflexivity.
  - destruct (is_not_None (k, x)); simpl; [rewrite Ek |]; apply IH, Hget.
Qed.

Lemma factory_event_built backfill session_id user_id source event_type p ts e :
  factory_event backfill session_id user_id source event_type p ts e ->
  built session_id user_id source event_type p e.
Proof.
  intros (event_id & stamp & on_sale & sale_price & quantity & rating & -> & _).
  split; unfold has_type, payload; apply get_drop_None;
    solve [reflexivity | discriminate].
Qed.

Lemma factory_event_timestamp backfill session_id user_id source event_type p ts e :
  factory_event backfill session_id user_id source event_type p (Some ts) e ->
  timestamp_of e = Some ts.
Proof.
  intros (event_id & stamp & on_sale & sale_price & quantity & rating & -> & Hts & _).
  rewrite (Hts ts eq_refl). unfold timestamp_of, payload.
  rewrite (get_drop_None "event_timestamp" (VTime ts));
    [reflexivity | reflexivity | discriminate].
Qed.

(** ** Event lists *)

Lemma has_type_unique (e : event) (t1 t2 : string) :
  has_type e t1 -> has_type e t2 -> t1 = t2.
Proof. unfold has_type. intros H1 H2. congruence. Qed.

Lemma app_snoc_split {A : Type} (l pre suffix : list A) (x e : A) :
  l ++ [x] = pre ++ e :: suffix ->
  (pre = l /\ e = x /\ suffix = []) \/
  (exists suffix', suffix = suffix' ++ [x] /\ l = pre ++ e :: suffix').
Proof.
  destruct suffix as [| y suffix' _] using rev_ind.
  - intros H. left.
    apply (app_inj_tail l pre x e) in H. destruct H as [-> ->]. auto.
  - intros H. right. exists suffix'.
    change (pre ++ e :: suffix' ++ [y]) with (pre ++ (e :: suffix') ++ [y]) in H.
    rewrite app_assoc in H. apply app_inj_tail in H. destruct H as [-> ->]. auto.
Qed.

Lemma carted_snoc (events : list event) (e : event) (p : Product) :
  carted events p -> carted (events ++ [e]) p.
Proof.
  intros (a & Ha & Hty & Hid). exists a. split; [| auto].
  apply in_or_app. left. exact Ha.
Qed.

Lemma causally_ordered_nil : causally_ordered [].
Proof. intros [| x pre] e suffix H; discriminate. Qed.

Lemma causally_ordered_snoc (events : list event) (e : event) :
  causally_ordered events ->
  (has_type e "purchase" \/ has_type e "return_item" ->
   exists p, carted events p /\ get "product_id" e = Some (VStr (product_id p))) ->
  causally_ordered (events ++ [e]).
Proof.
  intros Hev He pre e' suffix Hsplit Hty.
  apply app_snoc_split in Hsplit.
  destruct Hsplit as [(-> & -> & ->) | (suffix' & -> & ->)].
  - destruct (He Hty) as (p & (a & Ha & Hadd & Hid) & Hpid).
    exists a. rewrite Hpid. auto.
  - eapply Hev; [reflexivity | exact Hty].
Qed.

Lemma cart_ok_snoc cat (events : list event) (e : event) (cart : list Product) :
  cart_ok cat events cart -> cart_ok cat (events ++ [e]) cart.
Proof.
  intros H p Hp. destruct (H p Hp) as (H1 & H2 & H3).
  auto using carted_snoc.
Qed.

Lemma Forall_snoc {A : Type} (P : A -> Prop) (l : list A) (x : A) :
  Forall P l -> P x -> Forall P (l ++ [x]).
Proof. intros Hl Hx. apply Forall_app. auto. Qed.

Lemma In_range (i n : Z) : In i (range n) -> 0 <= i < n.
Proof.
  unfold range. intros H. apply in_map_iff in H.
  destruct H as (k & <- & Hk). apply in_seq in Hk. lia.
Qed.

Ltac wrong_type :=
  match goal with
  | H1 : has_type ?e ?a, H2 : has_type ?e ?b |- _ =>
      let E := fresh in
      pose proof (has_type_unique e a b H1 H2) as E; discriminate E
  end.

(** ** The backfill session *)

Section BackfillSession.

Variable R : Prop.
Variable product_catalog : list Product.
Variables session_id user_id source : string.
Variable session_timestamp : Z.
Hypothesis catalog_loaded : product_catalog = [] -> R.

Let emitted := backfill_event product_catalog session_id user_id source session_timestamp.

Let browsing (st : list event * list Product) : Prop :=
  Forall emitted (fst st) /\ causally_ordered (fst st) /\
  cart_ok product_catalog (fst st) (snd st).

Lemma emitted_intro event_type p t lo hi e :
  factory_event true session_id user_id source event_type p (Some t) e ->
  In p product_catalog ->
  In event_type ["product_view"; "add_to_cart"; "purchase"; "return_item"] ->
  (event_type <> "product_view" -> in_stock p = "True") ->
  backfill_window event_type = (lo, hi) ->
  session_timestamp + lo <= t <= session_timestamp + hi ->
  emitted e.
Proof.
  intros He Hp Hty Hstock Hwin Ht. exists event_type, p, t.
  rewrite Hwin. auto.
Qed.

Lemma backfill_add_to_cart_attempt p offset st :
  In p product_catalog -> 0 <= offset <= 540 -> browsing st ->
  yields R
    (Backfill.add_to_cart_attempt session_id user_id source p
       (session_timestamp + offset) st)
    browsing.
Proof.
  intros Hp Hoff (Hev & Hcausal & Hcart). destruct st as [events cart].
  unfold Backfill.add_to_cart_attempt. cbn [fst snd] in *.
  destruct (in_stock p =? "True")%string eqn:Hstock.
  - apply String.eqb_eq in Hstock.
    eapply yields_bind; [apply backfill_create_event_shape |].
    intros e He. apply yields_ret.
    pose proof (factory_event_built _ _ _ _ _ _ _ _ He) as Hb.
    destruct Hb as [_ _ _ Hty Hpid].
    split; [| split]; simpl.
    + apply Forall_snoc; [exact Hev |].
      apply (emitted_intro "add_to_cart" p _ 0 540 e He Hp);
        [simpl; tauto | auto | reflexivity | lia].
    + apply causally_ordered_snoc; [exact Hcausal |].
      intros [H | H]; wrong_type.
    + intros q Hq. apply in_app_or in Hq. destruct Hq as [Hq | [<- | []]].
      * apply (cart_ok_snoc _ _ e _ Hcart), Hq.
      * split; [exact Hp | split; [exact Hstock |]]. exists e. split; [| auto].
        apply in_or_app. right. left. reflexivity.
  - apply yields_ret. split; [| split]; assumption.
Qed.

Lemma backfill_view_step i st :
  0 <= i <= 9 -> browsing st ->
  yields R
    (Backfill.view_step product_catalog session_id user_id source
       session_timestamp i st)
    browsing.
Proof.
  intros Hi (Hev & Hcausal & Hcart). destruct st as [events cart].
  unfold Backfill.view_step. cbn [fst snd] in *.
  eapply yields_bind; [apply yields_choice, catalog_loaded |]. intros p Hp.
  eapply yields_bind; [apply yields_randint; lia |]. intros step Hstep.
  cbv beta in Hstep.
  eapply yields_bind; [apply backfill_create_event_shape |]. intros e He.
  pose proof (factory_event_built _ _ _ _ _ _ _ _ He) as [_ _ _ Hty Hpid].
  assert (Hnext : browsing (events ++ [e], cart)).
  { split; [| split]; simpl.
    - apply Forall_snoc; [exact Hev |].
      apply (emitted_intro "product_view" p _ 0 540 e He Hp);
        [simpl; tauto | congruence | reflexivity | nia].
    - apply causally_ordered_snoc; [exact Hcausal |].
      intros [H | H]; wrong_type.
    - apply cart_ok_snoc, Hcart. }
  eapply yields_bind; [apply yields_random |]. intros r _.
  destruct (Qltb r (40 # 100)).
  - apply (backfill_add_to_cart_attempt p (i * step) (events ++ [e], cart));
      [exact Hp | nia | exact Hnext].
  - apply yields_ret. exact Hnext.
Qed.

Let buying (cart : list Product) (st : list event * list Product) : Prop :=
  Forall emitted (fst st) /\ causally_ordered (fst st) /\
  cart_ok product_catalog (fst st) cart /\
  forall p, In p (snd st) -> In p cart.

Lemma backfill_purchase_step cart item st :
  In item cart -> buying cart st ->
  yields R
    (Backfill.purchase_step session_id user_id source session_timestamp item st)
    (buying cart).
Proof.
  intros Hitem (Hev & Hcausal & Hcart & Hbought). destruct st as [events purchased].
  unfold Backfill.purchase_step. cbn [fst snd] in *.
  eapply yields_bind; [apply yields_randint; lia |]. intros minutes Hmin.
  cbv beta in Hmin.
  eapply yields_bind; [apply backfill_create_event_shape |]. intros e He.
  apply yields_ret.
  pose proof (factory_event_built _ _ _ _ _ _ _ _ He) as [_ _ _ Hty Hpid].
  destruct (Hcart item Hitem) as (Hin & Hstock & Hcarted).
  split; [| split; [| split]]; simpl.
  - apply Forall_snoc; [exact Hev |].
    apply (emitted_intro "purchase" item _ 300 900 e He Hin);
      [simpl; tauto | auto | reflexivity | lia].
  - apply causally_ordered_snoc; [exact Hcausal |].
    intros _. exists item. auto.
  - apply cart_ok_snoc, Hcart.
  - intros q Hq. apply in_app_or in Hq. destruct Hq as [Hq | [<- | []]]; auto.
Qed.

Lemma backfill_checkout cart events :
  browsing (events, cart) ->
  yields R
    (Backfill.checkout session_id user_id source session_timestamp events cart)
    (buying cart).
Proof.
  intros (Hev & Hcausal & Hcart). cbn [fst snd] in *.
  assert (Hnone : buying cart (events, [])).
  { split; [| split; [| split]]; simpl; auto. intros p []. }
  unfold Backfill.checkout. destruct cart as [| c0 rest] eqn:Ecart.
  - apply yields_ret. exact Hnone.
  - rewrite <- Ecart in *.
    eapply yields_bind; [apply yields_random |]. intros r _.
    destruct (Qltb r (30 # 100)); [| apply yields_ret; exact Hnone].
    eapply yields_bind.
    { apply yields_randint. rewrite Ecart. simpl List.length. lia. }
    intros k Hk. cbv beta in Hk.
    eapply yields_bind; [apply yields_sample; lia |].
    intros items [_ Hitems].
    apply yields_for_each; [| exact Hnone].
    intros item st Hitem Hst. apply backfill_purchase_step; auto.
Qed.

Let returning (cart : list Product) (events : list event) : Prop :=
  Forall emitted events /\ causally_ordered events /\
  cart_ok product_catalog events cart.

Lemma backfill_return_step cart item events :
  In item cart -> returning cart events ->
  yields R
    (Backfill.return_step session_id user_id source session_timestamp item events)
    (returning cart).
Proof.
  intros Hitem (Hev & Hcausal & Hcart).
  unfold Backfill.return_step.
  eapply yields_bind; [apply yields_random |]. intros r _.
  destruct (Qltb r (8 # 100)); [| apply yields_ret; split; [| split]; assumption].
  eapply yields_bind; [apply yields_randint; lia |]. intros days Hdays.
  cbv beta in Hdays.
  eapply yields_bind; [apply backfill_create_event_shape |]. intros e He.
  apply yields_ret.
  pose proof (factory_event_built _ _ _ _ _ _ _ _ He) as [_ _ _ Hty Hpid].
  destruct (Hcart item Hitem) as (Hin & Hstock & Hcarted).
  split; [| split].
  - apply Forall_snoc; [exact Hev |].
    apply (emitted_intro "return_item" item _ 86400 432000 e He Hin);
      [simpl; tauto | auto | reflexivity | lia].
  - apply causally_ordered_snoc; [exact Hcausal |].
    intros _. exists item. auto.
  - apply cart_ok_snoc, Hcart.
Qed.

End BackfillSession.

Lemma backfill_generate_user_session (R : Prop) product_catalog session_timestamp :
  (product_catalog = [] -> R) ->
  yields R (Backfill.generate_user_session product_catalog session_timestamp)
    (backfill_session product_catalog session_timestamp).
Proof.
  intros HR. unfold Backfill.generate_user_session.
  eapply yields_bind; [apply yields_uuid4 |]. intros u _.
  eapply yields_bind; [apply yields_randint; lia |]. intros n _.
  eapply yields_bind; [apply yields_choice; discriminate |]. intros source Hsource.
  eapply yields_bind; [apply yields_randint; lia |]. intros views Hviews.
  cbv beta in Hviews.
  set (session_id := ("session-" ++ str_uuid u)%string).
  set (user_id := ("user-" ++ str_int n)%string).
  eapply yields_bind.
  { apply yields_for_each with
      (I := fun st : list event * list Product =>
              Forall (backfill_event product_catalog session_id user_id source
                        session_timestamp) (fst st) /\
              causally_ordered (fst st) /\
              cart_ok product_catalog (fst st) (snd st)).
    - intros i st Hi Hst. apply In_range in Hi.
      apply backfill_view_step; [exact HR | lia | exact Hst].
    - split; [constructor | split; [apply causally_ordered_nil | intros p []]]. }
  intros [events cart] Hbrowse.
  eapply yields_bind; [apply backfill_checkout; exact Hbrowse |].
  intros [events' purchased] (Hev & Hcausal & Hcart & Hbought).
  cbn [fst snd] in *.
  eapply yields_weaken.
  - apply yields_for_each with
      (I := fun evs : list event =>
              Forall (backfill_event product_catalog session_id user_id source
                        session_timestamp) evs /\
              causally_ordered evs /\ cart_ok product_catalog evs cart).
    + intros item evs Hitem Hevs.
      apply backfill_return_step; [auto | exact Hevs].
    + auto.
  - intros evs (Hevs & Hc & _). exists session_id, user_id, source. auto.
Qed.

(** ** Rules for the streaming script's state *)

Section WorldRules.

Variable R : Prop.

Let memory_pred : Type := list (string * Product) -> Prop.

Lemma wyields_ret {A : Type} (J J' : memory_pred) (a : A) (P : A -> Prop) :
  P a -> (forall d, J d -> J' d) -> wyields R J J' (ret a) P.
Proof. intros Ha HJ w Hw. split; [exact Ha | apply HJ, Hw]. Qed.

Lemma wyields_bind {A B : Type} (J J1 J' : memory_pred) (m : M Stream.world A)
  (f : A -> M Stream.world B) (P : A -> Prop) (Q : B -> Prop) :
  wyields R J J1 m P -> (forall d, J1 d -> J' d) ->
  (forall a, P a -> wyields R J1 J' (f a) Q) ->
  wyields R J J' (bind m f) Q.
Proof.
  intros Hm HJ Hf w Hw. apply post_bind.
  eapply post_weaken; [apply Hm, Hw | |].
  - intros a w' [Ha Hw']. apply Hf; assumption.
  - intros w' [Hr Hw']. split; [exact Hr | apply HJ, Hw'].
Qed.

Lemma wyields_consequence {A : Type} (J0 J J' J1 : memory_pred)
  (m : M Stream.world A) (P Q : A -> Prop) :
  wyields R J J' m P ->
  (forall d, J0 d -> J d) -> (forall d, J' d -> J1 d) -> (forall a, P a -> Q a) ->
  wyields R J0 J1 m Q.
Proof.
  intros Hm Hpre Hpost HPQ w Hw.
  eapply post_weaken; [apply Hm, Hpre, Hw | |].
  - intros a w' [Ha Hw']. auto.
  - intros w' [Hr Hw']. auto.
Qed.

Lemma wyields_with_rng {A : Type} (J J' : memory_pred) (m : M rng A) (P : A -> Prop) :
  yields R m P -> (forall d, J d -> J' d) -> wyields R J J' (Stream.with_rng m) P.
Proof.
  intros Hm HJ w Hw. specialize (Hm (Stream.gen w)).
  unfold post, Stream.with_rng in *.
  destruct (m (Stream.gen w)) as [[a | e] g']; simpl; auto.
Qed.

Lemma wyields_read_memory (J J' : memory_pred) :
  (forall d, J d -> J' d) -> wyields R J J' Stream.read_memory J.
Proof. intros HJ w Hw. split; [exact Hw | apply HJ, Hw]. Qed.

Lemma wyields_memory_append (J J' : memory_pred) (entry : string * Product) :
  (forall d, J d -> J' (deque_append Stream.maxlen d entry)) ->
  wyields R J J' (Stream.memory_append entry) (fun _ => True).
Proof. intros HJ w Hw. split; [exact I | apply HJ, Hw]. Qed.

(** The same rules when the invariant does not change. *)

Lemma wyields_value {A : Type} (J : memory_pred) (a : A) (P : A -> Prop) :
  P a -> wyields R J J (ret a) P.
Proof. intros Ha. apply wyields_ret; auto. Qed.

Lemma wyields_seq {A B : Type} (J : memory_pred) (m : M Stream.world A)
  (f : A -> M Stream.world B) (P : A -> Prop) (Q : B -> Prop) :
  wyields R J J m P -> (forall a, P a -> wyields R J J (f a) Q) ->
  wyields R J J (bind m f) Q.
Proof. intros Hm Hf. eapply wyields_bind; eauto. Qed.

Lemma wyields_rng {A : Type} (J : memory_pred) (m : M rng A) (P : A -> Prop) :
  yields R m P -> wyields R J J (Stream.with_rng m) P.
Proof. intros Hm. apply wyields_with_rng; auto. Qed.

End WorldRules.

(** ** The streaming session *)

Section StreamSession.

Variable R : Prop.
Variable product_catalog : list Product.
Variables session_id user_id source : string.
Variable J : list (string * Product) -> Prop.
Hypothesis catalog_loaded : product_catalog = [] -> R.
Hypothesis J_append :
  forall d p, J d -> In p product_catalog ->
    J (deque_append Stream.maxlen d (user_id, p)).

Let emitted := stream_event product_catalog session_id user_id source.

Let browsing (st : list event * list Product) : Prop :=
  Forall emitted (fst st) /\ causally_ordered (fst st) /\
  cart_ok product_catalog (fst st) (snd st).

Lemma stream_emitted_intro event_type p e :
  factory_event false session_id user_id source event_type p None e ->
  In p product_catalog ->
  In event_type ["product_view"; "add_to_cart"; "add_to_cart_failure";
                 "purchase"; "submit_review"; "return_item"] ->
  emitted e.
Proof. intros He Hp Hty. exists event_type, p. auto. Qed.

Lemma stream_add_to_cart_attempt p st :
  In p product_catalog -> browsing st ->
  yields R (Stream.add_to_cart_attempt session_id user_id source p st) browsing.
Proof.
  intros Hp (Hev & Hcausal & Hcart). destruct st as [events cart].
  unfold Stream.add_to_cart_attempt. cbn [fst snd] in *.
  destruct (in_stock p =? "True")%string eqn:Hstock.
  - apply String.eqb_eq in Hstock.
    eapply yields_bind; [apply stream_create_event_shape |].
    intros e He. apply yields_ret.
    pose proof (factory_event_built _ _ _ _ _ _ _ _ He) as [_ _ _ Hty Hpid].
    split; [| split]; cbn [fst snd].
    + apply Forall_snoc; [exact Hev |].
      apply (stream_emitted_intro "add_to_cart" p e He Hp). simpl; tauto.
    + apply causally_ordered_snoc; [exact Hcausal |].
      intros [H | H]; wrong_type.
    + intros q Hq. apply in_app_or in Hq. destruct Hq as [Hq | [<- | []]].
      * apply (cart_ok_snoc _ _ e _ Hcart), Hq.
      * split; [exact Hp | split; [exact Hstock |]]. exists e. split; [| auto].
        apply in_or_app. right. left. reflexivity.
  - eapply yields_bind; [apply stream_create_event_shape |].
    intros e He. apply yields_ret.
    pose proof (factory_event_built _ _ _ _ _ _ _ _ He) as [_ _ _ Hty Hpid].
    split; [| split]; cbn [fst snd].
    + apply Forall_snoc; [exact Hev |].
      apply (stream_emitted_intro "add_to_cart_failure" p e He Hp). simpl; tauto.
    + apply causally_ordered_snoc; [exact Hcausal |].
      intros [H | H]; wrong_type.
    + apply cart_ok_snoc, Hcart.
Qed.

Lemma stream_view_step i st :
  browsing st ->
  yields R (Stream.view_step product_catalog session_id user_id source i st) browsing.
Proof.
  intros (Hev & Hcausal & Hcart). destruct st as [events cart].
  unfold Stream.view_step. cbn [fst snd] in *.
  eapply yields_bind; [apply yields_choice, catalog_loaded |]. intros p Hp.
  eapply yields_bind; [apply stream_create_event_shape |]. intros e He.
  pose proof (factory_event_built _ _ _ _ _ _ _ _ He) as [_ _ _ Hty Hpid].
  assert (Hnext : browsing (events ++ [e], cart)).
  { split; [| split]; cbn [fst snd].
    - apply Forall_snoc; [exact Hev |].
      apply (stream_emitted_intro "product_view" p e He Hp). simpl; tauto.
    - apply causally_ordered_snoc; [exact Hcausal |].
      intros [H | H]; wrong_type.
    - apply cart_ok_snoc, Hcart. }
  eapply yields_bind; [apply yields_random |]. intros r _.
  destruct (Qltb r Stream.PROB_ADD_TO_CART).
  - apply stream_add_to_cart_attempt; [exact Hp | exact Hnext].
  - apply yields_ret. exact Hnext.
Qed.

Let buying (cart : list Product) (st : list event * list Product) : Prop :=
  Forall emitted (fst st) /\ causally_ordered (fst st) /\
  cart_ok product_catalog (fst st) cart /\
  forall p, In p (snd st) -> In p cart.

Lemma stream_purchase_step cart item st :
  In item cart -> buying cart st ->
  yields R (Stream.purchase_step session_id user_id source item st) (buying cart).
Proof.
  intros Hitem (Hev & Hcausal & Hcart & Hbought). destruct st as [events purchased].
  unfold Stream.purchase_step. cbn [fst snd] in *.
  eapply yields_bind; [apply stream_create_event_shape |]. intros e He.
  apply yields_ret.
  pose proof (factory_event_built _ _ _ _ _ _ _ _ He) as [_ _ _ Hty Hpid].
  destruct (Hcart item Hitem) as (Hin & Hstock & Hcarted).
  split; [| split; [| split]]; cbn [fst snd].
  - apply Forall_snoc; [exact Hev |].
    apply (stream_emitted_intro "purchase" item e He Hin). simpl; tauto.
  - apply causally_ordered_snoc; [exact Hcausal |].
    intros _. exists item. auto.
  - apply cart_ok_snoc, Hcart.
  - intros q Hq. apply in_app_or in Hq. destruct Hq as [Hq | [<- | []]]; auto.
Qed.

Lemma stream_checkout cart events :
  browsing (events, cart) ->
  wyields R J J (Stream.checkout session_id user_id source events cart) (buying cart).
Proof.
  intros (Hev & Hcausal & Hcart). cbn [fst snd] in *.
  assert (Hnone : buying cart (events, [])).
  { split; [| split; [| split]]; cbn [fst snd]; auto. intros p []. }
  unfold Stream.checkout. destruct cart as [| c0 rest] eqn:Ecart.
  - apply wyields_value, Hnone.
  - rewrite <- Ecart in *.
    eapply wyields_seq.
    { apply wyields_rng, yields_choice.
      intros E. rewrite E in Ecart. discriminate. }
    intros abandoned Habandoned.
    eapply wyields_seq.
    { apply wyields_memory_append.
      intros d Hd. apply J_append; [exact Hd | apply Hcart, Habandoned]. }
    intros _ _.
    eapply wyields_seq; [apply wyields_rng, yields_random |].
    intros r _.
    destruct (Qltb r Stream.PROB_CHECKOUT); [| apply wyields_value, Hnone].
    eapply wyields_seq.
    { apply wyields_rng, yields_randint.
      rewrite Ecart. simpl List.length. lia. }
    intros k Hk. cbv beta in Hk.
    eapply wyields_seq; [apply wyields_rng, yields_sample; lia |].
    intros items [_ Hitems].
    apply wyields_rng.
    apply yields_for_each; [| exact Hnone].
    intros item st Hitem Hst. apply stream_purchase_step; auto.
Qed.

Let returning (cart : list Product) (events : list event) : Prop :=
  Forall emitted events /\ causally_ordered events /\
  cart_ok product_catalog events cart.

Lemma stream_review cart events purchased_items :
  returning cart events -> (forall p, In p purchased_items -> In p cart) ->
  yields R (Stream.review session_id user_id source events purchased_items)
    (returning cart).
Proof.
  intros Hret Hbought. unfold Stream.review.
  destruct purchased_items as [| p0 rest] eqn:E; [apply yields_ret, Hret |].
  rewrite <- E in *.
  eapply yields_bind; [apply yields_random |]. intros r _.
  destruct (Qltb r (25 # 100)); [| apply yields_ret, Hret].
  eapply yields_bind; [apply yields_choice |].
  { intros E'. rewrite E' in E. discriminate. }
  intros item Hitem.
  eapply yields_bind; [apply stream_create_event_shape |]. intros e He.
  apply yields_ret.
  pose proof (factory_event_built _ _ _ _ _ _ _ _ He) as [_ _ _ Hty Hpid].
  destruct Hret as (Hev & Hcausal & Hcart).
  destruct (Hcart item (Hbought item Hitem)) as (Hin & Hstock & Hcarted).
  split; [| split].
  - apply Forall_snoc; [exact Hev |].
    apply (stream_emitted_intro "submit_review" item e He Hin). simpl; tauto.
  - apply causally_ordered_snoc; [exact Hcausal |].
    intros [H | H]; wrong_type.
  - apply cart_ok_snoc, Hcart.
Qed.

Lemma stream_return_step cart item events :
  In item cart -> returning cart events ->
  yields R (Stream.return_step session_id user_id source item events)
    (returning cart).
Proof.
  intros Hitem (Hev & Hcausal & Hcart).
  unfold Stream.return_step.
  eapply yields_bind; [apply yields_random |]. intros r _.
  destruct (Qltb r Stream.PROB_RETURN_ITEM);
    [| apply yields_ret; split; [| split]; assumption].
  eapply yields_bind; [apply stream_create_event_shape |]. intros e He.
  apply yields_ret.
  pose proof (factory_event_built _ _ _ _ _ _ _ _ He) as [_ _ _ Hty Hpid].
  destruct (Hcart item Hitem) as (Hin & Hstock & Hcarted).
  split; [| split].
  - apply Forall_snoc; [exact Hev |].
    apply (stream_emitted_intro "return_item" item e He Hin). simpl; tauto.
  - apply causally_ordered_snoc; [exact Hcausal |].
    intros _. exists item. auto.
  - apply cart_ok_snoc, Hcart.
Qed.

Lemma stream_browse_and_buy :
  wyields R J J (Stream.browse_and_buy product_catalog session_id user_id source)
    (fun events => Forall emitted events /\ causally_ordered events).
Proof.
  unfold Stream.browse_and_buy.
  eapply wyields_seq; [apply wyields_rng, yields_randint; lia |].
  intros views _.
  eapply wyields_seq.
  { apply wyields_rng. apply yields_for_each with (I := browsing).
    - intros i st _ Hst. apply stream_view_step, Hst.
    - split; [constructor | split; [apply causally_ordered_nil | intros p []]]. }
  intros [events cart] Hbrowse.
  eapply wyields_seq; [apply stream_checkout, Hbrowse |].
  intros [events' purchased] (Hev & Hcausal & Hcart & Hbought).
  cbn [fst snd] in *.
  eapply wyields_seq.
  { apply wyields_rng.
    apply (stream_review cart); [split; [| split]; assumption | exact Hbought]. }
  intros events'' Hret.
  apply wyields_rng.
  eapply yields_weaken.
  - apply yields_for_each with (I := returning cart); [| exact Hret].
    intros item evs Hitem Hevs. apply stream_return_step; auto.
  - intros evs (H1 & H2 & _). auto.
Qed.

End StreamSession.

Lemma stream_generate_user_session (R : Prop) (J : list (string * Product) -> Prop)
  product_catalog :
  (product_catalog = [] -> R) ->
  (forall d u p, J d -> In p product_catalog ->
     J (deque_append Stream.maxlen d (u, p))) ->
  forall w, J (Stream.recent_user_activity w) ->
    post (Stream.generate_user_session product_catalog) w
      (fun events w' =>
         stream_session product_catalog (Stream.recent_user_activity w) events /\
         J (Stream.recent_user_activity w'))
      (fun w' => R /\ J (Stream.recent_user_activity w')).
Proof.
  intros HR HJ w Hw.
  set (memory0 := Stream.recent_user_activity w).
  set (J0 := fun d => d = memory0 /\ J d).
  assert (Hweak : forall d, J0 d -> J d) by (intros d [_ H]; exact H).
  assert (Hkeep : forall d, J0 d -> J0 d) by auto.
  cut (wyields R J0 J (Stream.generate_user_session product_catalog)
         (stream_session product_catalog memory0)).
  { intros H. apply H. split; [reflexivity | exact Hw]. }
  assert (Hjourney : forall session_id user_id source,
    In source stream_sources ->
    wyields R J0 J
      (Stream.browse_and_buy product_catalog session_id user_id source)
      (stream_session product_catalog memory0)).
  { intros session_id user_id source Hsource.
    eapply wyields_consequence.
    - apply (stream_browse_and_buy R product_catalog session_id user_id source J HR).
      intros d p. apply HJ.
    - exact Hweak.
    - auto.
    - intros events [Hev Hcausal]. exists session_id, user_id, source. auto. }
  unfold Stream.generate_user_session.
  eapply (wyields_bind R J0 J0 J);
    [apply wyields_with_rng; [apply yields_uuid4 | exact Hkeep] | exact Hweak |].
  intros u _. set (session_id := ("session-" ++ str_uuid u)%string).
  eapply (wyields_bind R J0 J0 J);
    [apply wyields_with_rng; [apply yields_choice; discriminate | exact Hkeep]
    | exact Hweak |].
  intros source Hsource.
  eapply (wyields_bind R J0 J0 J);
    [apply wyields_read_memory; exact Hkeep | exact Hweak |].
  intros memory [-> _].
  eapply (wyields_bind R J0 J0 J) with (P := fun b : bool => b = true -> memory0 <> []).
  { destruct memory0 as [| m0 rest].
    - apply wyields_ret; [discriminate | exact Hkeep].
    - eapply (wyields_bind R J0 J0 J0);
        [apply wyields_with_rng; [apply yields_random | exact Hkeep] | exact Hkeep |].
      intros r _. apply wyields_ret; [discriminate | exact Hkeep]. }
  { exact Hweak. }
  intros [|] Hrepeat.
  - eapply (wyields_bind R J0 J0 J).
    { apply wyields_with_rng; [apply yields_choice | exact Hkeep].
      intros E. exfalso. apply Hrepeat; [reflexivity | exact E]. }
    { exact Hweak. }
    intros [user_id prev_product] Hentry.
    eapply (wyields_bind R J0 J0 J);
      [apply wyields_with_rng; [apply yields_random | exact Hkeep] | exact Hweak |].
    intros r _. destruct (Qltb r (50 # 100)).
    + eapply (wyields_bind R J0 J J).
      { apply wyields_with_rng; [apply stream_create_event_shape | exact Hweak]. }
      { auto. }
      intros e He. apply wyields_ret; [| auto].
      exists session_id, user_id, source. split; [exact Hsource |].
      right. exists e, prev_product. auto.
    + apply Hjourney, Hsource.
  - eapply (wyields_bind R J0 J0 J);
      [apply wyields_with_rng; [apply yields_randint; lia | exact Hkeep]
      | exact Hweak |].
    intros n _. apply Hjourney, Hsource.
Qed.

(** ** Sessions return when a catalog is loaded *)



(** ** Causal order within a session *)

Lemma backfill_session_of_run product_catalog session_timestamp g events g' :
  Backfill.generate_user_session product_catalog session_timestamp g
    = (Ret events, g') ->
  backfill_session product_catalog session_timestamp events.
Proof.
  intros E.
  exact (yields_returned True _ _ _ _ _
           (backfill_generate_user_session True product_catalog session_timestamp
              (fun _ => I)) E).
Qed.

Lemma stream_session_of_run product_catalog w events w' :
  Stream.generate_user_session product_catalog w = (Ret events, w') ->
  stream_session product_catalog (Stream.recent_user_activity w) events.
Proof.
  intros E.
  pose proof (stream_generate_user_session True (fun _ => True) product_catalog
                (fun _ => I) (fun _ _ _ _ _ => I) w I) as H.
  apply (post_returned _ _ _ _ _ _ H E).
Qed.

(** C1, as amended: in every backfill session, and in every streaming
    session that browses, each [purchase] and [return_item] event refers to
    the product of an earlier [add_to_cart] event of the session; the only
    other streaming session is the repeat-purchase shortcut, a single
    [purchase] of a product remembered from an earlier session. *)
Theorem purchases_follow_cart_additions :
  (forall product_catalog session_timestamp g events g',
     Backfill.generate_user_session product_catalog session_timestamp g
       = (Ret events, g') ->
     causally_ordered events) /\
  (forall product_catalog w events w',
     Stream.generate_user_session product_catalog w = (Ret events, w') ->
     causally_ordered events \/
     repeat_purchase_only (Stream.recent_user_activity w) events).
Proof.
  split.
  - intros cat ts g events g' E.
    destruct (backfill_session_of_run _ _ _ _ _ E) as (sid & uid & src & _ & _ & H).
    exact H.
  - intros cat w events w' E.
    destruct (stream_session_of_run _ _ _ _ E)
      as (sid & uid & src & _ & [[_ H] | (e & p & -> & Hin & He)]).
    + left. exact H.
    + right. destruct (factory_event_built _ _ _ _ _ _ _ _ He) as [_ Hu _ Hty Hpid].
      exists e, uid, p. auto.
Qed.

(** C1 as stated fails: the second session of a fresh streaming process
    can be the shortcut, whose purchase follows no cart addition. *)
Lemma shortcut_purchase_has_no_cart_addition :
  exists events,
    returned (Stream.generate_user_session sample_catalog after_first_session)
      = Some events /\
    ~ causally_ordered events.
Proof.
  eexists. split; [vm_compute; reflexivity |].
  intros H.
  match type of H with
  | causally_ordered [?e] =>
      destruct (H [] e [] eq_refl (or_introl eq_refl)) as (a & [] & _)
  end.
Qed.

Lemma purchases_follow_cart_additions_witness :
  causally_ordered
    (match returned (Backfill.generate_user_session sample_catalog 1700000000 (oracle []))
     with Some events => events | None => [] end).
Proof.
  apply (proj1 purchases_follow_cart_additions sample_catalog 1700000000 (oracle []) _
           (snd (Backfill.generate_user_session sample_catalog 1700000000 (oracle [])))).
  vm_compute. reflexivity.
Defined.

(** ** Products come from the catalog *)

Lemma built_in_catalog cat session_id user_id source event_type p e :
  built session_id user_id source event_type p e -> In p cat -> in_catalog cat e.
Proof.
  intros [_ _ _ _ Hpid] Hp. exists (product_id p). split; [exact Hpid |].
  apply in_map, Hp.
Qed.

Lemma backfill_event_in_catalog cat session_id user_id source ts e :
  backfill_event cat session_id user_id source ts e -> in_catalog cat e.
Proof.
  intros (ty & p & t & He & Hp & _).
  eapply built_in_catalog; [eapply factory_event_built, He | exact Hp].
Qed.

Lemma stream_event_in_catalog cat session_id user_id source e :
  stream_event cat session_id user_id source e -> in_catalog cat e.
Proof.
  intros (ty & p & He & Hp & _).
  eapply built_in_catalog; [eapply factory_event_built, He | exact Hp].
Qed.

Lemma remembers_catalog_append cat d user_id p :
  remembers_catalog cat d -> In p cat ->
  remembers_catalog cat (deque_append Stream.maxlen d (user_id, p)).
Proof.
  unfold remembers_catalog, deque_append. intros Hd Hp.
  assert (H : Forall (fun entry => In (snd entry) cat) (d ++ [(user_id, p)])).
  { apply Forall_snoc; [exact Hd | exact Hp]. }
  destruct (Stream.maxlen <? List.length (d ++ [(user_id, p)]))%nat; [| exact H].
  destruct (d ++ [(user_id, p)]) as [| x rest]; [constructor |].
  simpl. inversion H. assumption.
Qed.

Lemma stream_session_in_catalog cat memory events :
  remembers_catalog cat memory -> stream_session cat memory events ->
  Forall (in_catalog cat) events.
Proof.
  intros Hmem (sid & uid & src & _ & [[Hev _] | (e & p & -> & Hin & He)]).
  - eapply Forall_impl; [| exact Hev].
    intros e. apply stream_event_in_catalog.
  - constructor; [| constructor].
    eapply built_in_catalog; [eapply factory_event_built, He |].
    unfold remembers_catalog in Hmem. rewrite Forall_forall in Hmem.
    apply (Hmem (uid, p) Hin).
Qed.

Lemma stream_loop_in_catalog cat n :
  forall w, remembers_catalog cat (Stream.recent_user_activity w) ->
    Forall (in_catalog cat) (fst (Stream.stream cat n w)).
Proof.
  induction n as [| n IH]; intros w Hw; simpl; [constructor |].
  pose proof (stream_generate_user_session True (remembers_catalog cat) cat
                (fun _ => I) (remembers_catalog_append cat) w Hw) as H.
  unfold post in H.
  destruct (Stream.generate_user_session cat w) as [[events | e] w'].
  - destruct H as [Hsession Hw'].
    pose proof (stream_session_in_catalog cat _ events Hw Hsession) as Hnow.
    specialize (IH w' Hw').
    destruct (Stream.stream cat n w') as [later w'']. cbn [fst] in *.
    apply Forall_app. split; [exact Hnow | exact IH].
  - apply IH, H.
Qed.

(** C4: every event of a backfill session, every event of a streaming
    session started with a memory of catalog products (which the session
    preserves), and so every event a streaming process publishes, carries
    the [product_id] of a row of the loaded catalog. *)
Theorem events_refer_to_catalog_products :
  (forall product_catalog session_timestamp g events g',
     Backfill.generate_user_session product_catalog session_timestamp g
       = (Ret events, g') ->
     Forall (in_catalog product_catalog) events) /\
  (forall product_catalog w events w',
     remembers_catalog product_catalog (Stream.recent_user_activity w) ->
     Stream.generate_user_session product_catalog w = (Ret events, w') ->
     Forall (in_catalog product_catalog) events /\
     remembers_catalog product_catalog (Stream.recent_user_activity w')) /\
  (forall product_catalog n g,
     Forall (in_catalog product_catalog) (Stream.main product_catalog n g)).
Proof.
  split; [| split].
  - intros cat ts g events g' E.
    destruct (backfill_session_of_run _ _ _ _ _ E) as (sid & uid & src & _ & H & _).
    eapply Forall_impl; [| exact H].
    intros e. apply backfill_event_in_catalog.
  - intros cat w events w' Hw E.
    pose proof (stream_generate_user_session True (remembers_catalog cat) cat
                  (fun _ => I) (remembers_catalog_append cat) w Hw) as H.
    apply (post_returned _ _ _ _ _ _ H) in E. destruct E as [Hs Hw'].
    split; [| exact Hw'].
    exact (stream_session_in_catalog cat _ events Hw Hs).
  - intros cat n g. unfold Stream.main.
    destruct cat as [| p0 rest] eqn:E; [constructor |]. rewrite <- E.
    apply stream_loop_in_catalog. constructor.
Qed.

Lemma events_refer_to_catalog_products_witness :
  Forall (in_catalog sample_catalog)
    (match returned (Stream.generate_user_session sample_catalog after_first_session)
     with Some events => events | None => [] end).
Proof.
  apply (proj1 (proj2 events_refer_to_catalog_products) sample_catalog
           after_first_session _
           (snd (Stream.generate_user_session sample_catalog after_first_session))).
  - repeat constructor.
  - vm_compute. reflexivity.
Defined.

(** ** One identity per session *)




(** ** Quantity and price of a built event *)

Lemma in_list_acquired_not_return event_type :
  in_list event_type ["purchase"; "add_to_cart"] = true ->
  (event_type =? "return_item")%string = false.
Proof.
  unfold in_list. simpl. intros H.
  apply orb_true_iff in H. destruct H as [H | H].
  - apply String.eqb_eq in H. subst. reflexivity.
  - apply orb_true_iff in H. destruct H as [H | H]; [| discriminate].
    apply String.eqb_eq in H. subst. reflexivity.
Qed.

Lemma factory_event_quantity backfill session_id user_id source event_type p ts e :
  factory_event backfill session_id user_id source event_type p ts e ->
  quantity_rule backfill event_type e.
Proof.
  intros (event_id & stamp & on_sale & sale_price & quantity & rating & -> & _ & _ & _ & Hq).
  exists quantity. split.
  - unfold payload. apply get_drop_None; [reflexivity | discriminate].
  - destruct (in_list event_type ["purchase"; "add_to_cart"]) eqn:E.
    + destruct backfill; [exact Hq |].
      rewrite (in_list_acquired_not_return _ E) in Hq. exact Hq.
    + destruct backfill; destruct (event_type =? "return_item")%string; exact Hq.
Qed.



(** C2, as amended: the factories always return an event, and its
    [quantity] field is always present: in [[1,3]] (backfill) or 1
    (streaming) for [add_to_cart] and [purchase], -1 for [return_item], and
    1 for every other type, [product_view] and [submit_review] included. *)
Theorem quantity_of_built_event :
  forall session_id user_id source event_type p timestamp g,
    (exists e g',
       Backfill._create_event session_id user_id source event_type p timestamp g
         = (Ret e, g') /\
       quantity_rule true event_type e) /\
    (exists e g',
       Stream._create_event session_id user_id source event_type p g = (Ret e, g') /\
       quantity_rule false event_type e).
Proof.
  intros sid uid src ty p ts g. split.
  - destruct (yields_total _ _ g (backfill_create_event_shape False sid uid src ty p ts))
      as (e & g' & E & He).
    exists e, g'. split; [exact E |]. eapply factory_event_quantity, He.
  - destruct (yields_total _ _ g (stream_create_event_shape False sid uid src ty p))
      as (e & g' & E & He).
    exists e, g'. split; [exact E |]. eapply factory_event_quantity, He.
Qed.

(** C2 as stated fails: a [product_view] event carries [quantity = 1] in
    both scripts, and so does a streaming [submit_review] event. *)
Lemma quantity_present_on_views_and_reviews :
  (exists e,
     returned (Backfill._create_event "session-1" "user-1" "google" "product_view"
                 laptop 1700000000 (oracle []))
       = Some e /\
     get "quantity" e = Some (VInt 1)) /\
  (exists e,
     returned (Stream._create_event "session-1" "user-1" "google" "product_view"
                 laptop (oracle []))
       = Some e /\
     get "quantity" e = Some (VInt 1)) /\
  (exists e,
     returned (Stream._create_event "session-1" "user-1" "google" "submit_review"
                 laptop (oracle []))
       = Some e /\
     get "quantity" e = Some (VInt 1)).
Proof.
  repeat split; eexists; (split; [vm_compute; reflexivity | reflexivity]).
Qed.


(** ** Stock-aware cart additions *)

Lemma run_bind_ret {S A B : Type} (m : M S A) (f : A -> B) (s s' : S) (a : A) :
  m s = (Ret a, s') -> bind m (fun x => ret (f x)) s = (Ret (f a), s').
Proof. intros E. unfold bind, ret. rewrite E. reflexivity. Qed.

Lemma backfill_event_stocked cat session_id user_id source ts e :
  backfill_event cat session_id user_id source ts e ->
  is_acquisition e -> refers_to_stocked cat e.
Proof.
  intros (ty & p & t & He & Hp & _ & Hstock & _) Hacq.
  destruct (factory_event_built _ _ _ _ _ _ _ _ He) as [_ _ _ Hty Hpid].
  exists p. split; [exact Hp | split; [| exact Hpid]].
  apply Hstock. intros ->.
  destruct Hacq as [H | [H | H]]; wrong_type.
Qed.

(** C5: an attempt on a product whose [in_stock] reads [True] appends it to
    the cart and emits [add_to_cart] in both scripts; otherwise the streaming
    script emits [add_to_cart_failure] and leaves the cart alone, while the
    backfill script changes nothing and emits nothing, so every backfill
    [add_to_cart], [purchase] and [return_item] event refers to a stocked
    catalog row. *)
Theorem add_to_cart_attempt_respects_stock :
  (forall session_id user_id source p event_ts events cart g,
     in_stock p = "True" ->
     (exists e g',
        Backfill.add_to_cart_attempt session_id user_id source p event_ts
          (events, cart) g = (Ret (events ++ [e], cart ++ [p]), g') /\
        built session_id user_id source "add_to_cart" p e) /\
     (exists e g',
        Stream.add_to_cart_attempt session_id user_id source p (events, cart) g
          = (Ret (events ++ [e], cart ++ [p]), g') /\
        built session_id user_id source "add_to_cart" p e)) /\
  (forall session_id user_id source p event_ts events cart g,
     in_stock p <> "True" ->
     Backfill.add_to_cart_attempt session_id user_id source p event_ts
       (events, cart) g = (Ret (events, cart), g) /\
     (exists e g',
        Stream.add_to_cart_attempt session_id user_id source p (events, cart) g
          = (Ret (events ++ [e], cart), g') /\
        built session_id user_id source "add_to_cart_failure" p e)) /\
  (forall product_catalog session_timestamp g events g',
     Backfill.generate_user_session product_catalog session_timestamp g
       = (Ret events, g') ->
     Forall (fun e => is_acquisition e -> refers_to_stocked product_catalog e) events).
Proof.
  split; [| split].
  - intros sid uid src p ts events cart g Hstock.
    apply String.eqb_eq in Hstock.
    unfold Backfill.add_to_cart_attempt, Stream.add_to_cart_attempt.
    rewrite Hstock. split.
    + destruct (yields_total _ _ g
                  (backfill_create_event_shape False sid uid src "add_to_cart" p ts))
        as (e & g' & E & He).
      exists e, g'. split; [| eapply factory_event_built, He].
      apply (run_bind_ret _ (fun e => (events ++ [e], cart ++ [p])) _ _ _ E).
    + destruct (yields_total _ _ g
                  (stream_create_event_shape False sid uid src "add_to_cart" p))
        as (e & g' & E & He).
      exists e, g'. split; [| eapply factory_event_built, He].
      apply (run_bind_ret _ (fun e => (events ++ [e], cart ++ [p])) _ _ _ E).
  - intros sid uid src p ts events cart g Hstock.
    apply String.eqb_neq in Hstock.
    unfold Backfill.add_to_cart_attempt, Stream.add_to_cart_attempt.
    rewrite Hstock. split; [reflexivity |].
    destruct (yields_total _ _ g
                (stream_create_event_shape False sid uid src "add_to_cart_failure" p))
      as (e & g' & E & He).
    exists e, g'. split; [| eapply factory_event_built, He].
    apply (run_bind_ret _ (fun e => (events ++ [e], cart)) _ _ _ E).
  - intros cat ts g events g' E.
    destruct (backfill_session_of_run _ _ _ _ _ E) as (sid & uid & src & _ & H & _).
    eapply Forall_impl; [| exact H].
    intros e. apply backfill_event_stocked.
Qed.

Lemma add_to_cart_attempt_respects_stock_witness :
  Backfill.add_to_cart_attempt "session-1" "user-1" "google" television 1700000000
    ([], []) (oracle []) = (Ret ([], []), oracle []) /\
  exists e g',
    Stream.add_to_cart_attempt "session-1" "user-1" "google" television
      ([], []) (oracle []) = (Ret ([] ++ [e], []), g') /\
    built "session-1" "user-1" "google" "add_to_cart_failure" television e.
Proof.
  apply (proj1 (proj2 add_to_cart_attempt_respects_stock)).
  discriminate.
Defined.

(** ** The bounded memory *)

Section Deque.

Context {A : Type}.
Variable maxlen : nat.








End Deque.




(** ** Backfill timestamps *)

Lemma backfill_event_window cat session_id user_id source ts e :
  backfill_event cat session_id user_id source ts e -> stamped_in_window ts e.
Proof.
  intros (ty & p & t & He & _ & _ & _ & Ht).
  exists ty, t. split; [| split; [| exact Ht]].
  - eapply built_type, factory_event_built, He.
  - eapply factory_event_timestamp, He.
Qed.

Lemma backfill_event_before_returns cat session_id user_id source ts e t :
  backfill_event cat session_id user_id source ts e ->
  ~ has_type e "return_item" -> timestamp_of e = Some t -> t <= ts + 900.
Proof.
  intros (ty & p & t' & He & _ & Hty & _ & Hwin) Hnot Ht.
  rewrite (factory_event_timestamp _ _ _ _ _ _ _ _ He) in Ht. injection Ht as ->.
  pose proof (built_type _ _ _ _ _ _ (factory_event_built _ _ _ _ _ _ _ _ He)) as Htype.
  simpl in Hty. destruct Hty as [<- | [<- | [<- | [<- | []]]]].
  - change (backfill_window "product_view") with (0, 540) in Hwin. simpl in Hwin. lia.
  - change (backfill_window "add_to_cart") with (0, 540) in Hwin. simpl in Hwin. lia.
  - change (backfill_window "purchase") with (300, 900) in Hwin. simpl in Hwin. lia.
  - contradiction.
Qed.

Lemma backfill_event_return_time cat session_id user_id source ts e t :
  backfill_event cat session_id user_id source ts e ->
  has_type e "return_item" -> timestamp_of e = Some t -> ts + 86400 <= t.
Proof.
  intros (ty & p & t' & He & _ & _ & _ & Hwin) Hret Ht.
  rewrite (factory_event_timestamp _ _ _ _ _ _ _ _ He) in Ht. injection Ht as ->.
  pose proof (built_type _ _ _ _ _ _ (factory_event_built _ _ _ _ _ _ _ _ He)) as Htype.
  rewrite (has_type_unique e ty "return_item" Htype Hret) in Hwin.
  change (backfill_window "return_item") with (86400, 432000) in Hwin.
  simpl in Hwin. lia.
Qed.

(** C7, as amended: in a backfill session every timestamp lies in the
    window of its event type, counted from the session start: 0 to 540
    seconds for [product_view] and [add_to_cart], 5 to 15 minutes for
    [purchase], 1 to 5 days for [return_item].  So no timestamp precedes the
    session start and every return is stamped after every other event;
    within the views and within the purchases the order is not fixed. *)
Theorem backfill_timestamps_stay_in_windows
  product_catalog session_timestamp g events g' :
  Backfill.generate_user_session product_catalog session_timestamp g
    = (Ret events, g') ->
  Forall (stamped_in_window session_timestamp) events /\
  (forall e1 e2 t1 t2,
     In e1 events -> In e2 events ->
     ~ has_type e1 "return_item" -> has_type e2 "return_item" ->
     timestamp_of e1 = Some t1 -> timestamp_of e2 = Some t2 ->
     t1 <= t2).
Proof.
  intros E.
  destruct (backfill_session_of_run _ _ _ _ _ E) as (sid & uid & src & _ & H & _).
  split.
  - eapply Forall_impl; [| exact H].
    intros e. apply backfill_event_window.
  - intros e1 e2 t1 t2 H1 H2 Hn Hr Ht1 Ht2.
    rewrite Forall_forall in H.
    pose proof (backfill_event_before_returns _ _ _ _ _ _ _ (H e1 H1) Hn Ht1).
    pose proof (backfill_event_return_time _ _ _ _ _ _ _ (H e2 H2) Hr Ht2).
    lia.
Qed.

(** C7 as stated fails: three views staggered by 0, 1 * 60 and 2 * 10
    seconds are emitted with decreasing timestamps. *)
Lemma backfill_timestamps_can_decrease :
  exists events,
    returned (Backfill.generate_user_session sample_catalog 1700000000
                (oracle staggered_tape)) = Some events /\
    timestamps events = [1700000000; 1700000060; 1700000020] /\
    nondecreasing (timestamps events) = false.
Proof.
  eexists. split; [vm_compute; reflexivity |].
  split; vm_compute; reflexivity.
Qed.

Lemma backfill_timestamps_stay_in_windows_witness :
  Forall (stamped_in_window 1700000000)
    (match returned (Backfill.generate_user_session sample_catalog 1700000000
                       (oracle staggered_tape))
     with Some events => events | None => [] end).
Proof.
  apply (backfill_timestamps_stay_in_windows sample_catalog 1700000000
           (oracle staggered_tape) _
           (snd (Backfill.generate_user_session sample_catalog 1700000000
                   (oracle staggered_tape)))).
  vm_compute. reflexivity.
Defined.

(** ** The surge rule of the backfill scheduler *)

Lemma weekday_range (ordinal : Z) : 0 <= Backfill.weekday ordinal < 7.
Proof. unfold Backfill.weekday. apply Z.mod_pos_bound. lia. Qed.

(** C8, on the code: the session count is boosted on every day whose
    [weekday()] is at least 4, that is on Friday, Saturday and Sunday:
    three weekdays, where the comment on line 158 names Fridays and
    Saturdays.  On Sunday 2024-01-07 the bounds are 262 and 487, against 175
    and 325 on Monday 2024-01-01. *)
Theorem surge_covers_three_weekdays :
  (forall current_day,
     Backfill.sessions_multiplier current_day = 15 # 10 <->
     In (Backfill.weekday current_day) [4; 5; 6]) /\
  map Backfill.weekday sample_week = [0; 1; 2; 3; 4; 5; 6] /\
  surge_days sample_week = [738890; 738891; 738892] /\
  Backfill.num_sessions_bounds 738892 = (262, 487) /\
  Backfill.num_sessions_bounds 738886 = (175, 325).
Proof.
  split; [| repeat split; vm_compute; reflexivity].
  intros day. unfold Backfill.sessions_multiplier.
  pose proof (weekday_range day) as Hr.
  destruct (4 <=? Backfill.weekday day) eqn:E.
  - apply Z.leb_le in E. split; [intros _ | reflexivity].
    simpl. lia.
  - apply Z.leb_gt in E. split; [discriminate |].
    simpl. lia.
Qed.

(** ** Traffic sources *)

Lemma backfill_event_source cat session_id user_id source ts e :
  backfill_event cat session_id user_id source ts e ->
  get "source" e = Some (VStr source).
Proof.
  intros (ty & p & t & He & _).
  eapply built_source, factory_event_built, He.
Qed.

Lemma stream_session_source cat memory events :
  stream_session cat memory events ->
  Forall (source_among stream_sources) events.
Proof.
  intros (sid & uid & src & Hsrc & [[H _] | (e & p & -> & _ & He)]).
  - eapply Forall_impl; [| exact H].
    intros e (ty & p & He & _). exists src. split; [| exact Hsrc].
    eapply built_source, factory_event_built, He.
  - constructor; [| constructor]. exists src. split; [| exact Hsrc].
    eapply built_source, factory_event_built, He.
Qed.

Lemma choice_index {A : Type} (seq : list A) (d : A) (g : rng) :
  seq <> [] ->
  fst (choice seq g)
    = Ret (nth (N.to_nat (draws g (cursor g) mod N.of_nat (List.length seq))) seq d).
Proof.
  intros Hne. unfold choice. destruct seq as [| x0 rest] eqn:E; [contradiction |].
  rewrite <- E. unfold bind, randbelow, next_raw, ret. simpl fst.
  set (j := (draws g (cursor g) mod N.of_nat (List.length seq))%N).
  assert (Hj : (j < N.of_nat (List.length seq))%N).
  { apply N.mod_lt. subst seq. simpl List.length. lia. }
  rewrite (nth_error_nth' seq d) by lia. reflexivity.
Qed.

Lemma backfill_session_source cat ts events :
  backfill_session cat ts events ->
  Forall (source_among backfill_sources) events.
Proof.
  intros (sid & uid & src & Hsrc & H & _).
  eapply Forall_impl; [| exact H].
  intros e He. exists src. split; [| exact Hsrc].
  eapply backfill_event_source, He.
Qed.

(** C9, as amended: a streaming session takes its source from the five
    names [google], [facebook], [email], [direct] and [organic_search], each
    of which occurs; a backfill session takes it from the first four only,
    each of which occurs.  The source is the element of the list at the
    index the random source draws below the length of the list. *)
Theorem session_sources_by_script :
  (forall product_catalog session_timestamp g events g',
     Backfill.generate_user_session product_catalog session_timestamp g
       = (Ret events, g') ->
     Forall (source_among ["google"; "facebook"; "email"; "direct"]) events) /\
  (forall product_catalog w events w',
     Stream.generate_user_session product_catalog w = (Ret events, w') ->
     Forall (source_among
               ["google"; "facebook"; "email"; "direct"; "organic_search"]) events) /\
  (forall source,
     In source ["google"; "facebook"; "email"; "direct"; "organic_search"] ->
     exists w events,
       returned (Stream.generate_user_session sample_catalog w) = Some events /\
       events <> [] /\
       Forall (fun e => get "source" e = Some (VStr source)) events) /\
  (forall source,
     In source ["google"; "facebook"; "email"; "direct"] ->
     exists g events,
       returned (Backfill.generate_user_session sample_catalog 1700000000 g)
         = Some events /\
       events <> [] /\
       Forall (fun e => get "source" e = Some (VStr source)) events) /\
  (forall g,
     fst (choice backfill_sources g)
       = Ret (nth (N.to_nat (draws g (cursor g) mod 4)) backfill_sources "") /\
     fst (choice stream_sources g)
       = Ret (nth (N.to_nat (draws g (cursor g) mod 5)) stream_sources "")).
Proof.
  split; [| split; [| split; [| split]]].
  - intros cat ts g events g' E.
    eapply backfill_session_source, backfill_session_of_run, E.
  - intros cat w events w' E.
    eapply stream_session_source, stream_session_of_run, E.
  - intros source Hs. simpl in Hs.
    destruct Hs as [<- | [<- | [<- | [<- | [<- | []]]]]].
    + exists (Stream.mk_world (oracle [0; 0]%N) []). eexists.
      split; [vm_compute; reflexivity | split; [discriminate | repeat constructor]].
    + exists (Stream.mk_world (oracle [0; 1]%N) []). eexists.
      split; [vm_compute; reflexivity | split; [discriminate | repeat constructor]].
    + exists (Stream.mk_world (oracle [0; 2]%N) []). eexists.
      split; [vm_compute; reflexivity | split; [discriminate | repeat constructor]].
    + exists (Stream.mk_world (oracle [0; 3]%N) []). eexists.
      split; [vm_compute; reflexivity | split; [discriminate | repeat constructor]].
    + exists (Stream.mk_world (oracle [0; 4]%N) []). eexists.
      split; [vm_compute; reflexivity | split; [discriminate | repeat constructor]].
  - intros source Hs. simpl in Hs.
    destruct Hs as [<- | [<- | [<- | [<- | []]]]].
    + exists (oracle [0; 0; 0]%N). eexists.
      split; [vm_compute; reflexivity | split; [discriminate | repeat constructor]].
    + exists (oracle [0; 0; 1]%N). eexists.
      split; [vm_compute; reflexivity | split; [discriminate | repeat constructor]].
    + exists (oracle [0; 0; 2]%N). eexists.
      split; [vm_compute; reflexivity | split; [discriminate | repeat constructor]].
    + exists (oracle [0; 0; 3]%N). eexists.
      split; [vm_compute; reflexivity | split; [discriminate | repeat constructor]].
  - intros g. split.
    + apply (choice_index backfill_sources ""). discriminate.
    + apply (choice_index stream_sources ""). discriminate.
Qed.

(** C9 as stated fails: [organic_search] is one of the five names, and no
    event of a backfill session carries it. *)
Lemma backfill_never_names_organic_search :
  In "organic_search" stream_sources /\
  forall product_catalog session_timestamp g events g',
    Backfill.generate_user_session product_catalog session_timestamp g
      = (Ret events, g') ->
    Forall (fun e => get "source" e <> Some (VStr "organic_search")) events.
Proof.
  split; [simpl; tauto |].
  intros cat ts g events g' E.
  pose proof (backfill_session_source _ _ _ (backfill_session_of_run _ _ _ _ _ E)) as H.
  eapply Forall_impl; [| exact H].
  intros e (src & Hget & Hsrc) Hbad. rewrite Hget in Hbad.
  injection Hbad as ->. simpl in Hsrc.
  destruct Hsrc as [H' | [H' | [H' | [H' | []]]]]; discriminate H'.
Qed.

Lemma session_sources_by_script_witness :
  Forall (source_among ["google"; "facebook"; "email"; "direct"])
    (match returned (Backfill.generate_user_session sample_catalog 1700000000
                       (oracle [0; 0; 3]%N))
     with Some events => events | None => [] end).
Proof.
  apply (proj1 session_sources_by_script sample_catalog 1700000000
           (oracle [0; 0; 3]%N) _
           (snd (Backfill.generate_user_session sample_catalog 1700000000
                   (oracle [0; 0; 3]%N)))).
  vm_compute. reflexivity.
Defined.

(** * Further properties *)

(** ** Rating and key layout of a built event *)


Lemma factory_event_keys backfill session_id user_id source event_type p ts e :
  factory_event backfill session_id user_id source event_type p ts e ->
  keys e = expected_keys event_type.
Proof.
  intros (event_id & stamp & on_sale & sale_price & quantity & rating & -> & _
          & _ & Hrating & _).
  unfold rating_drawn, payload, expected_keys, keys in *.
  destruct (in_list event_type ["add_to_cart"; "purchase"; "return_item"]);
    destruct (event_type =? "submit_review")%string;
    try (destruct Hrating as (n & -> & _)); try subst rating; reflexivity.
Qed.


(** X2: an event built by either factory has exactly the keys of its type,
    in dictionary order: the seven identity keys, [sale_price] for
    [add_to_cart], [purchase] and [return_item] only, [quantity], [rating] for
    [submit_review] only, and [source].  So it has nine or ten keys, never
    both [sale_price] and [rating], and no key twice. *)
Theorem keys_of_built_event :
  forall session_id user_id source event_type p timestamp g,
    ((exists e g',
        Backfill._create_event session_id user_id source event_type p timestamp g
          = (Ret e, g') /\
        keys e = expected_keys event_type) /\
     (exists e g',
        Stream._create_event session_id user_id source event_type p g = (Ret e, g') /\
        keys e = expected_keys event_type)) /\
    NoDup (expected_keys event_type) /\
    (9 <= List.length (expected_keys event_type) <= 10)%nat /\
    ~ (In "sale_price" (expected_keys event_type) /\
       In "rating" (expected_keys event_type)).
Proof.
  intros sid uid src ty p ts g. split; [split |].
  - destruct (yields_total _ _ g (backfill_create_event_shape False sid uid src ty p ts))
      as (e & g' & E & He).
    exists e, g'. split; [exact E |]. eapply factory_event_keys, He.
  - destruct (yields_total _ _ g (stream_create_event_shape False sid uid src ty p))
      as (e & g' & E & He).
    exists e, g'. split; [exact E |]. eapply factory_event_keys, He.
  - unfold expected_keys.
    destruct (in_list ty ["add_to_cart"; "purchase"; "return_item"]) eqn:E1;
      destruct (ty =? "submit_review")%string eqn:E2.
    + apply String.eqb_eq in E2. subst ty. discriminate E1.
    + split; [| split]; simpl.
      * repeat constructor; simpl; intuition discriminate.
      * lia.
      * intros [_ H]. intuition discriminate.
    + split; [| split]; simpl.
      * repeat constructor; simpl; intuition discriminate.
      * lia.
      * intros [H _]. intuition discriminate.
    + split; [| split]; simpl.
      * repeat constructor; simpl; intuition discriminate.
      * lia.
      * intros [H _]. intuition discriminate.
Qed.

(** ** Counting the events of a session *)

Lemma yields_for_each_counted {A St : Type} (R : Prop) (I : nat -> St -> Prop)
  (body : A -> St -> M rng St) (xs : list A) :
  (forall k x st, In x xs -> I k st -> yields R (body x st) (I (S k))) ->
  forall k st, I k st -> yields R (for_each xs body st) (I (k + List.length xs)%nat).
Proof.
  induction xs as [| x xs IH]; intros Hbody k st Hst; simpl.
  - rewrite Nat.add_0_r. apply yields_ret, Hst.
  - eapply yields_bind.
    + apply (Hbody k); [left; reflexivity | exact Hst].
    + intros st' Hst'. rewrite <- Nat.add_succ_comm. apply IH; [| exact Hst'].
      intros j y st0 Hy. apply Hbody. right; exact Hy.
Qed.

Lemma length_range (n : Z) : List.length (range n) = Z.to_nat n.
Proof. unfold range. rewrite length_map, length_seq. reflexivity. Qed.

Lemma type_is_has_type (e : event) (t event_type : string) :
  has_type e t -> type_is event_type e = String.eqb t event_type.
Proof. unfold has_type, type_is. intros ->. reflexivity. Qed.

Lemma count_type_snoc (event_type : string) (events : list event) (e : event) :
  count_type event_type (events ++ [e])
    = (count_type event_type events + (if type_is event_type e then 1 else 0))%nat.
Proof.
  unfold count_type. rewrite filter_app, length_app. simpl.
  destruct (type_is event_type e); reflexivity.
Qed.

Lemma starts_with_view_snoc (events : list event) (e : event) :
  starts_with_view events -> starts_with_view (events ++ [e]).
Proof.
  intros (first & rest & -> & H). exists first, (rest ++ [e]). auto.
Qed.

Lemma starts_with_view_first (events : list event) (e : event) :
  has_type e "product_view" -> starts_with_view events \/ events = [] ->
  starts_with_view (events ++ [e]).
Proof.
  intros He [H | ->]; [apply starts_with_view_snoc, H |].
  exists e, []. auto.
Qed.

(** After appending an event of known type, every count is the old count
    plus one or zero. *)
Ltac count_snoc Hty :=
  rewrite ?length_app, ?count_type_snoc, ?(type_is_has_type _ _ _ Hty);
  cbn [String.eqb Ascii.eqb Bool.eqb List.length Nat.add].

Lemma tally_nil : tally [] 0 0 0 0 0 0.
Proof. repeat split. Qed.

Lemma tally_snoc events e t v a f b w r :
  tally events v a f b w r -> has_type e t -> In t event_types ->
  tally (events ++ [e])
    (v + one_if t "product_view") (a + one_if t "add_to_cart")
    (f + one_if t "add_to_cart_failure") (b + one_if t "purchase")
    (w + one_if t "submit_review") (r + one_if t "return_item").
Proof.
  intros (Hv & Ha & Hf & Hb & Hw & Hr & Hlen) Hty Ht.
  unfold tally. rewrite !count_type_snoc, !(type_is_has_type _ _ _ Hty), length_app.
  fold (one_if t "product_view"). fold (one_if t "add_to_cart").
  fold (one_if t "add_to_cart_failure"). fold (one_if t "purchase").
  fold (one_if t "submit_review"). fold (one_if t "return_item").
  rewrite Hv, Ha, Hf, Hb, Hw, Hr, Hlen.
  repeat (split; [reflexivity |]).
  simpl in Ht.
  destruct Ht as [<- | [<- | [<- | [<- | [<- | [<- | []]]]]]];
    unfold one_if; simpl; lia.
Qed.

(** The tally after one more event of a fixed type. *)
Lemma tally_view events e v a f b w r :
  tally events v a f b w r -> has_type e "product_view" ->
  tally (events ++ [e]) (S v) a f b w r.
Proof.
  intros H Hty. pose proof (tally_snoc _ _ _ _ _ _ _ _ _ H Hty) as H'.
  unfold one_if in H'. simpl in H'.
  rewrite !Nat.add_0_r, Nat.add_1_r in H'. apply H'. simpl. tauto.
Qed.

Lemma tally_addition events e v a f b w r :
  tally events v a f b w r -> has_type e "add_to_cart" ->
  tally (events ++ [e]) v (S a) f b w r.
Proof.
  intros H Hty. pose proof (tally_snoc _ _ _ _ _ _ _ _ _ H Hty) as H'.
  unfold one_if in H'. simpl in H'.
  rewrite !Nat.add_0_r, Nat.add_1_r in H'. apply H'. simpl. tauto.
Qed.

Lemma tally_failure events e v a f b w r :
  tally events v a f b w r -> has_type e "add_to_cart_failure" ->
  tally (events ++ [e]) v a (S f) b w r.
Proof.
  intros H Hty. pose proof (tally_snoc _ _ _ _ _ _ _ _ _ H Hty) as H'.
  unfold one_if in H'. simpl in H'.
  rewrite !Nat.add_0_r, Nat.add_1_r in H'. apply H'. simpl. tauto.
Qed.

Lemma tally_purchase events e v a f b w r :
  tally events v a f b w r -> has_type e "purchase" ->
  tally (events ++ [e]) v a f (S b) w r.
Proof.
  intros H Hty. pose proof (tally_snoc _ _ _ _ _ _ _ _ _ H Hty) as H'.
  unfold one_if in H'. simpl in H'.
  rewrite !Nat.add_0_r, Nat.add_1_r in H'. apply H'. simpl. tauto.
Qed.

Lemma tally_review events e v a f b w r :
  tally events v a f b w r -> has_type e "submit_review" ->
  tally (events ++ [e]) v a f b (S w) r.
Proof.
  intros H Hty. pose proof (tally_snoc _ _ _ _ _ _ _ _ _ H Hty) as H'.
  unfold one_if in H'. simpl in H'.
  rewrite !Nat.add_0_r, Nat.add_1_r in H'. apply H'. simpl. tauto.
Qed.

Lemma tally_return events e v a f b w r :
  tally events v a f b w r -> has_type e "return_item" ->
  tally (events ++ [e]) v a f b w (S r).
Proof.
  intros H Hty. pose proof (tally_snoc _ _ _ _ _ _ _ _ _ H Hty) as H'.
  unfold one_if in H'. simpl in H'.
  rewrite !Nat.add_0_r, Nat.add_1_r in H'. apply H'. simpl. tauto.
Qed.

Section BackfillFunnel.

Variable R : Prop.
Variable product_catalog : list Product.
Variables session_id user_id source : string.
Variable session_timestamp : Z.
Hypothesis catalog_loaded : product_catalog = [] -> R.

(** After [k] views: [k] view events, one addition per cart entry. *)
Let viewed (k : nat) (st : list event * list Product) : Prop :=
  tally (fst st) k (List.length (snd st)) 0 0 0 0 /\
  (List.length (snd st) <= k)%nat /\
  (starts_with_view (fst st) \/ fst st = []).

Lemma backfill_view_step_count k i st :
  viewed k st ->
  yields R
    (Backfill.view_step product_catalog session_id user_id source
       session_timestamp i st)
    (fun st' => viewed (S k) st' /\ starts_with_view (fst st')).
Proof.
  intros (Htally & Hcart & Hstart). destruct st as [events cart].
  unfold Backfill.view_step, Backfill.add_to_cart_attempt. cbn [fst snd] in *.
  eapply yields_bind; [apply yields_choice, catalog_loaded |]. intros p _.
  eapply yields_bind; [apply yields_randint; lia |]. intros step _.
  eapply yields_bind; [apply backfill_create_event_shape |]. intros e He.
  pose proof (built_type _ _ _ _ _ _ (factory_event_built _ _ _ _ _ _ _ _ He)) as Hty.
  pose proof (tally_view _ _ _ _ _ _ _ _ Htally Hty) as Htally'.
  pose proof (starts_with_view_first _ _ Hty Hstart) as Hstart'.
  eapply yields_bind; [apply yields_random |]. intros r _.
  destruct (Qltb r (40 # 100)); [destruct (in_stock p =? "True")%string |].
  - eapply yields_bind; [apply backfill_create_event_shape |]. intros e' He'.
    pose proof (built_type _ _ _ _ _ _ (factory_event_built _ _ _ _ _ _ _ _ He'))
      as Hty'.
    apply yields_ret. unfold viewed. cbn [fst snd]. rewrite length_app. simpl List.length.
    rewrite Nat.add_1_r.
    split; [split; [| split] |].
    + apply tally_addition; assumption.
    + lia.
    + left. apply starts_with_view_snoc, Hstart'.
    + apply starts_with_view_snoc, Hstart'.
  - apply yields_ret. unfold viewed. cbn [fst snd].
    split; [split; [exact Htally' | split; [lia | left; exact Hstart']] | exact Hstart'].
  - apply yields_ret. unfold viewed. cbn [fst snd].
    split; [split; [exact Htally' | split; [lia | left; exact Hstart']] | exact Hstart'].
Qed.

Lemma backfill_purchase_step_count v a j item st :
  tally (fst st) v a 0 j 0 0 /\ List.length (snd st) = j /\ starts_with_view (fst st) ->
  yields R
    (Backfill.purchase_step session_id user_id source session_timestamp item st)
    (fun st' => tally (fst st') v a 0 (S j) 0 0 /\ List.length (snd st') = S j /\
                starts_with_view (fst st')).
Proof.
  intros (Htally & Hlen & Hstart). destruct st as [events purchased].
  unfold Backfill.purchase_step. cbn [fst snd] in *.
  eapply yields_bind; [apply yields_randint; lia |]. intros minutes _.
  eapply yields_bind; [apply backfill_create_event_shape |]. intros e He.
  pose proof (built_type _ _ _ _ _ _ (factory_event_built _ _ _ _ _ _ _ _ He)) as Hty.
  apply yields_ret. cbn [fst snd]. split; [| split].
  - apply tally_purchase; assumption.
  - rewrite length_app. simpl. lia.
  - apply starts_with_view_snoc, Hstart.
Qed.

Lemma backfill_checkout_count v events cart :
  tally events v (List.length cart) 0 0 0 0 -> starts_with_view events ->
  yields R
    (Backfill.checkout session_id user_id source session_timestamp events cart)
    (fun st' => tally (fst st') v (List.length cart) 0 (List.length (snd st')) 0 0 /\
                (List.length (snd st') <= List.length cart)%nat /\
                starts_with_view (fst st')).
Proof.
  intros Htally Hstart.
  assert (Hnone : tally events v (List.length cart) 0 (@List.length Product []) 0 0 /\
                  (@List.length Product [] <= List.length cart)%nat /\
                  starts_with_view events).
  { split; [exact Htally | split; [simpl; lia | exact Hstart]]. }
  unfold Backfill.checkout. destruct cart as [| c0 rest] eqn:Ecart.
  - apply yields_ret. exact Hnone.
  - rewrite <- Ecart in *.
    eapply yields_bind; [apply yields_random |]. intros r _.
    destruct (Qltb r (30 # 100)); [| apply yields_ret; exact Hnone].
    eapply yields_bind.
    { apply yields_randint. rewrite Ecart. simpl List.length. lia. }
    intros k Hk. cbv beta in Hk.
    eapply yields_bind; [apply yields_sample; lia |].
    intros items [Hitems _].
    eapply yields_weaken.
    + apply (yields_for_each_counted R
               (fun j st => tally (fst st) v (List.length cart) 0 j 0 0 /\
                            List.length (snd st) = j /\ starts_with_view (fst st))).
      * intros j item st _ Hst. apply backfill_purchase_step_count, Hst.
      * split; [exact Htally | split; [reflexivity | exact Hstart]].
    + intros st' (Ht & Hl & Hs). rewrite Hl. simpl in *.
      split; [exact Ht | split; [lia | exact Hs]].
Qed.

Lemma backfill_return_step_count v a b j item events :
  (exists r, (r <= j)%nat /\ tally events v a 0 b 0 r) /\ starts_with_view events ->
  yields R
    (Backfill.return_step session_id user_id source session_timestamp item events)
    (fun events' => (exists r, (r <= S j)%nat /\ tally events' v a 0 b 0 r) /\
                    starts_with_view events').
Proof.
  intros [(r & Hr & Htally) Hstart]. unfold Backfill.return_step.
  eapply yields_bind; [apply yields_random |]. intros x _.
  destruct (Qltb x (8 # 100)).
  - eapply yields_bind; [apply yields_randint; lia |]. intros days _.
    eapply yields_bind; [apply backfill_create_event_shape |]. intros e He.
    pose proof (built_type _ _ _ _ _ _ (factory_event_built _ _ _ _ _ _ _ _ He)) as Hty.
    apply yields_ret. split; [| apply starts_with_view_snoc, Hstart].
    exists (S r). split; [lia | apply tally_return; assumption].
  - apply yields_ret. split; [| exact Hstart]. exists r. split; [lia | exact Htally].
Qed.

End BackfillFunnel.

Lemma backfill_session_funnel (R : Prop) product_catalog session_timestamp :
  (product_catalog = [] -> R) ->
  yields R (Backfill.generate_user_session product_catalog session_timestamp)
    backfill_funnel.
Proof.
  intros HR. unfold Backfill.generate_user_session.
  eapply yields_bind; [apply yields_uuid4 |]. intros u _.
  eapply yields_bind; [apply yields_randint; lia |]. intros n _.
  eapply yields_bind; [apply yields_choice; discriminate |]. intros source _.
  eapply yields_bind; [apply yields_randint; lia |]. intros views Hviews.
  cbv beta in Hviews.
  set (session_id := ("session-" ++ str_uuid u)%string).
  set (user_id := ("user-" ++ str_int n)%string).
  eapply yields_bind.
  { apply (yields_for_each_counted R
             (fun k st =>
                (tally (fst st) k (List.length (snd st)) 0 0 0 0 /\
                 (List.length (snd st) <= k)%nat /\
                 (starts_with_view (fst st) \/ fst st = [])) /\
                (k = 0%nat \/ starts_with_view (fst st)))).
    - intros k i st _ [Hst _].
      eapply yields_weaken.
      + apply backfill_view_step_count; [exact HR | exact Hst].
      + intros st' [H1 H2]. split; [exact H1 | right; exact H2].
    - split; [split; [apply tally_nil | split; [simpl; lia | right; reflexivity]]
             | left; reflexivity]. }
  rewrite length_range. simpl Nat.add.
  intros [events cart] [(Htally & Hcart & _) [Hzero | Hstart]]; [lia |].
  cbn [fst snd] in *.
  eapply yields_bind; [apply backfill_checkout_count; eassumption |].
  intros [events' purchased] (Htally' & Hbought & Hstart'). cbn [fst snd] in *.
  eapply yields_weaken.
  - apply (fun H => yields_for_each_counted R
             (fun j evs =>
                (exists r, (r <= j)%nat /\
                   tally evs (Z.to_nat views) (List.length cart) 0
                     (List.length purchased) 0 r) /\
                starts_with_view evs) _ _ H 0%nat).
    + intros j item evs _ Hevs. apply backfill_return_step_count, Hevs.
    + split; [exists 0%nat; split; [lia | exact Htally'] | exact Hstart'].
  - intros evs [(r & Hr & (Hv & Ha & _ & Hb & _ & Hret & Hlen)) Hs].
    unfold backfill_funnel. rewrite Hv, Ha, Hb, Hret, Hlen.
    simpl in Hr. repeat split; try lia; exact Hs.
Qed.

(** X3: a backfill session that returns holds 1 to 10 [product_view]
    events, no more [add_to_cart] events than views, no more [purchase]
    events than cart additions, no more [return_item] events than purchases,
    and no event of any other type; so it has between 1 and 40 events, and
    its first event is a view. *)
Theorem backfill_session_is_a_funnel
  product_catalog session_timestamp g events g' :
  Backfill.generate_user_session product_catalog session_timestamp g
    = (Ret events, g') ->
  backfill_funnel events /\ (1 <= List.length events <= 40)%nat.
Proof.
  intros E.
  pose proof (yields_returned True _ _ _ _ _
                (backfill_session_funnel True product_catalog session_timestamp
                   (fun _ => I)) E) as H.
  split; [exact H |].
  destruct H as (Hv & Ha & Hb & Hr & Hlen & _). lia.
Qed.

Lemma backfill_session_is_a_funnel_witness :
  backfill_funnel
    (match returned (Backfill.generate_user_session sample_catalog 1700000000
                       (oracle []))
     with Some events => events | None => [] end) /\
  (1 <= List.length
          (match returned (Backfill.generate_user_session sample_catalog 1700000000
                             (oracle []))
           with Some events => events | None => [] end) <= 40)%nat.
Proof.
  apply (backfill_session_is_a_funnel sample_catalog 1700000000
           (oracle []) _
           (snd (Backfill.generate_user_session sample_catalog 1700000000
                   (oracle [])))).
  vm_compute. reflexivity.
Defined.

Section StreamFunnel.

Variable R : Prop.
Variable product_catalog : list Product.
Variables session_id user_id source : string.
Hypothesis catalog_loaded : product_catalog = [] -> R.

Let any_memory : list (string * Product) -> Prop := fun _ => True.

(** After [k] views: [k] view events, one addition per cart entry, and one
    failure for each refused addition. *)
Let viewed (k : nat) (st : list event * list Product) : Prop :=
  exists f, tally (fst st) k (List.length (snd st)) f 0 0 0 /\
            (List.length (snd st) + f <= k)%nat.

Lemma stream_view_step_count k i st :
  viewed k st /\ (starts_with_view (fst st) \/ fst st = []) ->
  yields R (Stream.view_step product_catalog session_id user_id source i st)
    (fun st' => viewed (S k) st' /\ (starts_with_view (fst st') \/ fst st' = [])).
Proof.
  intros [(f & Htally & Hcart) Hstart]. destruct st as [events cart].
  unfold Stream.view_step, Stream.add_to_cart_attempt. cbn [fst snd] in *.
  eapply yields_bind; [apply yields_choice, catalog_loaded |]. intros p _.
  eapply yields_bind; [apply stream_create_event_shape |]. intros e He.
  pose proof (built_type _ _ _ _ _ _ (factory_event_built _ _ _ _ _ _ _ _ He)) as Hty.
  pose proof (tally_view _ _ _ _ _ _ _ _ Htally Hty) as Htally'.
  pose proof (starts_with_view_first _ _ Hty Hstart) as Hstart'.
  eapply yields_bind; [apply yields_random |]. intros r _.
  destruct (Qltb r Stream.PROB_ADD_TO_CART);
    [destruct (in_stock p =? "True")%string |].
  - eapply yields_bind; [apply stream_create_event_shape |]. intros e' He'.
    pose proof (built_type _ _ _ _ _ _ (factory_event_built _ _ _ _ _ _ _ _ He'))
      as Hty'.
    apply yields_ret. unfold viewed. cbn [fst snd].
    split; [| left; apply starts_with_view_snoc, Hstart'].
    exists f. rewrite length_app. simpl List.length. rewrite Nat.add_1_r.
    split; [apply tally_addition; assumption | lia].
  - eapply yields_bind; [apply stream_create_event_shape |]. intros e' He'.
    pose proof (built_type _ _ _ _ _ _ (factory_event_built _ _ _ _ _ _ _ _ He'))
      as Hty'.
    apply yields_ret. unfold viewed. cbn [fst snd].
    split; [| left; apply starts_with_view_snoc, Hstart'].
    exists (S f). split; [apply tally_failure; assumption | lia].
  - apply yields_ret. unfold viewed. cbn [fst snd].
    split; [| left; exact Hstart'].
    exists f. split; [exact Htally' | lia].
Qed.

Lemma stream_purchase_step_count v a f j item st :
  tally (fst st) v a f j 0 0 /\ List.length (snd st) = j /\ starts_with_view (fst st) ->
  yields R (Stream.purchase_step session_id user_id source item st)
    (fun st' => tally (fst st') v a f (S j) 0 0 /\ List.length (snd st') = S j /\
                starts_with_view (fst st')).
Proof.
  intros (Htally & Hlen & Hstart). destruct st as [events purchased].
  unfold Stream.purchase_step. cbn [fst snd] in *.
  eapply yields_bind; [apply stream_create_event_shape |]. intros e He.
  pose proof (built_type _ _ _ _ _ _ (factory_event_built _ _ _ _ _ _ _ _ He)) as Hty.
  apply yields_ret. cbn [fst snd]. split; [| split].
  - apply tally_purchase; assumption.
  - rewrite length_app. simpl. lia.
  - apply starts_with_view_snoc, Hstart.
Qed.

Lemma stream_checkout_count v f events cart :
  tally events v (List.length cart) f 0 0 0 -> starts_with_view events ->
  wyields R any_memory any_memory
    (Stream.checkout session_id user_id source events cart)
    (fun st' => tally (fst st') v (List.length cart) f (List.length (snd st')) 0 0 /\
                (List.length (snd st') <= List.length cart)%nat /\
                starts_with_view (fst st')).
Proof.
  intros Htally Hstart.
  assert (Hnone : tally events v (List.length cart) f (@List.length Product []) 0 0 /\
                  (@List.length Product [] <= List.length cart)%nat /\
                  starts_with_view events).
  { split; [exact Htally | split; [simpl; lia | exact Hstart]]. }
  unfold Stream.checkout. destruct cart as [| c0 rest] eqn:Ecart.
  - apply wyields_value. exact Hnone.
  - rewrite <- Ecart in *.
    eapply wyields_seq.
    { apply wyields_rng, yields_choice.
      intros E. rewrite E in Ecart. discriminate. }
    intros abandoned _.
    eapply wyields_seq; [apply wyields_memory_append; intros d _; exact I |].
    intros _ _.
    eapply wyields_seq; [apply wyields_rng, yields_random |].
    intros r _.
    destruct (Qltb r Stream.PROB_CHECKOUT); [| apply wyields_value; exact Hnone].
    eapply wyields_seq.
    { apply wyields_rng, yields_randint.
      rewrite Ecart. simpl List.length. lia. }
    intros k Hk. cbv beta in Hk.
    eapply wyields_seq; [apply wyields_rng, yields_sample; lia |].
    intros items [Hitems _].
    apply wyields_rng. eapply yields_weaken.
    + apply (fun H => yields_for_each_counted R
               (fun j st => tally (fst st) v (List.length cart) f j 0 0 /\
                            List.length (snd st) = j /\ starts_with_view (fst st))
               _ _ H 0%nat).
      * intros j item st _ Hst. apply stream_purchase_step_count, Hst.
      * split; [exact Htally | split; [reflexivity | exact Hstart]].
    + intros st' (Ht & Hl & Hs). rewrite Hl. simpl in *.
      split; [exact Ht | split; [lia | exact Hs]].
Qed.

Lemma stream_review_count v a f events purchased_items :
  tally events v a f (List.length purchased_items) 0 0 -> starts_with_view events ->
  yields R (Stream.review session_id user_id source events purchased_items)
    (fun events' =>
       (exists w, (w <= 1)%nat /\ (w <= List.length purchased_items)%nat /\
                  tally events' v a f (List.length purchased_items) w 0) /\
       starts_with_view events').
Proof.
  intros Htally Hstart.
  assert (Hnone : (exists w, (w <= 1)%nat /\ (w <= List.length purchased_items)%nat /\
                     tally events v a f (List.length purchased_items) w 0) /\
                  starts_with_view events).
  { split; [exists 0%nat; split; [lia | split; [lia | exact Htally]] | exact Hstart]. }
  unfold Stream.review. destruct purchased_items as [| p0 rest] eqn:E;
    [apply yields_ret, Hnone |].
  rewrite <- E in *.
  eapply yields_bind; [apply yields_random |]. intros r _.
  destruct (Qltb r (25 # 100)); [| apply yields_ret, Hnone].
  eapply yields_bind; [apply yields_choice |].
  { intros E'. rewrite E' in E. discriminate. }
  intros item _.
  eapply yields_bind; [apply stream_create_event_shape |]. intros e He.
  pose proof (built_type _ _ _ _ _ _ (factory_event_built _ _ _ _ _ _ _ _ He)) as Hty.
  apply yields_ret. split; [| apply starts_with_view_snoc, Hstart].
  exists 1%nat. split; [lia | split; [rewrite E; simpl; lia |]].
  apply tally_review; assumption.
Qed.

Lemma stream_return_step_count v a f b w j item events :
  (exists r, (r <= j)%nat /\ tally events v a f b w r) /\ starts_with_view events ->
  yields R (Stream.return_step session_id user_id source item events)
    (fun events' => (exists r, (r <= S j)%nat /\ tally events' v a f b w r) /\
                    starts_with_view events').
Proof.
  intros [(r & Hr & Htally) Hstart]. unfold Stream.return_step.
  eapply yields_bind; [apply yields_random |]. intros x _.
  destruct (Qltb x Stream.PROB_RETURN_ITEM).
  - eapply yields_bind; [apply stream_create_event_shape |]. intros e He.
    pose proof (built_type _ _ _ _ _ _ (factory_event_built _ _ _ _ _ _ _ _ He)) as Hty.
    apply yields_ret. split; [| apply starts_with_view_snoc, Hstart].
    exists (S r). split; [lia | apply tally_return; assumption].
  - apply yields_ret. split; [| exact Hstart]. exists r. split; [lia | exact Htally].
Qed.

Lemma stream_browse_and_buy_funnel :
  wyields R any_memory any_memory
    (Stream.browse_and_buy product_catalog session_id user_id source) stream_funnel.
Proof.
  unfold Stream.browse_and_buy.
  eapply wyields_seq; [apply wyields_rng, yields_randint; lia |].
  intros views Hviews. cbv beta in Hviews.
  eapply wyields_seq.
  { apply wyields_rng.
    apply (fun H => yields_for_each_counted R
             (fun k st => viewed k st /\ (starts_with_view (fst st) \/ fst st = []))
             _ _ H 0%nat).
    - intros k i st _ Hst. apply stream_view_step_count, Hst.
    - split; [exists 0%nat; split; [apply tally_nil | simpl; lia] | right; reflexivity]. }
  rewrite length_range. simpl Nat.add.
  intros [events cart] [(f & Htally & Hcart) Hstart]. cbn [fst snd] in *.
  assert (Hstart0 : starts_with_view events).
  { destruct Hstart as [H | ->]; [exact H |].
    destruct Htally as (Hv & _). unfold count_type in Hv. simpl in Hv. lia. }
  eapply wyields_seq; [eapply stream_checkout_count with (f := f); eassumption |].
  intros [events' purchased] (Htally' & Hbought & Hstart'). cbn [fst snd] in *.
  eapply wyields_seq; [apply wyields_rng; eapply stream_review_count; eassumption |].
  intros events'' [(w & Hw1 & Hw2 & Htally'') Hstart''].
  apply wyields_rng. eapply yields_weaken.
  - apply (fun H => yields_for_each_counted R
             (fun j evs =>
                (exists r, (r <= j)%nat /\
                   tally evs (Z.to_nat views) (List.length cart) f
                     (List.length purchased) w r) /\
                starts_with_view evs) _ _ H 0%nat).
    + intros j item evs _ Hevs. apply stream_return_step_count, Hevs.
    + split; [exists 0%nat; split; [lia | exact Htally''] | exact Hstart''].
  - intros evs [(r & Hr & (Hv & Ha & Hf & Hb & Hrev & Hret & Hlen)) Hs].
    unfold stream_funnel. rewrite Hv, Ha, Hf, Hb, Hrev, Hret, Hlen.
    simpl in Hr. repeat split; try lia; exact Hs.
Qed.

End StreamFunnel.

Lemma stream_session_funnel (R : Prop) (J : list (string * Product) -> Prop)
  product_catalog :
  (product_catalog = [] -> R) ->
  wyields R J (fun _ => True) (Stream.generate_user_session product_catalog)
    (fun events =>
       stream_funnel events \/
       ((exists e, events = [e] /\ has_type e "purchase") /\
        exists d, J d /\ d <> [])).
Proof.
  intros HR.
  assert (Hkeep : forall d, J d -> J d) by auto.
  assert (Hdrop : forall d : list (string * Product), J d -> True) by auto.
  assert (Hjourney : forall session_id user_id source,
    wyields R J (fun _ => True)
      (Stream.browse_and_buy product_catalog session_id user_id source)
      (fun events =>
         stream_funnel events \/
         ((exists e, events = [e] /\ has_type e "purchase") /\
          exists d, J d /\ d <> []))).
  { intros session_id user_id source.
    eapply wyields_consequence.
    - apply (stream_browse_and_buy_funnel R product_catalog session_id user_id
               source HR).
    - auto.
    - auto.
    - intros events H. left. exact H. }
  unfold Stream.generate_user_session.
  eapply (wyields_bind R J J);
    [apply wyields_with_rng; [apply yields_uuid4 | exact Hkeep] | exact Hdrop |].
  intros u _.
  eapply (wyields_bind R J J);
    [apply wyields_with_rng; [apply yields_choice; discriminate | exact Hkeep]
    | exact Hdrop |].
  intros source _.
  eapply (wyields_bind R J J);
    [apply wyields_read_memory; exact Hkeep | exact Hdrop |].
  intros memory Hmemory.
  eapply (wyields_bind R J J) with (P := fun b : bool => b = true -> memory <> []).
  { destruct memory as [| m0 rest].
    - apply wyields_ret; [discriminate | exact Hkeep].
    - eapply (wyields_bind R J J J);
        [apply wyields_with_rng; [apply yields_random | exact Hkeep] | exact Hkeep |].
      intros r _. apply wyields_ret; [discriminate | exact Hkeep]. }
  { exact Hdrop. }
  intros [|] Hrepeat.
  - eapply (wyields_bind R J J).
    { apply wyields_with_rng; [apply yields_choice | exact Hkeep].
      intros E. exfalso. apply Hrepeat; [reflexivity | exact E]. }
    { exact Hdrop. }
    intros [user_id prev_product] _.
    eapply (wyields_bind R J J);
      [apply wyields_with_rng; [apply yields_random | exact Hkeep] | exact Hdrop |].
    intros r _. destruct (Qltb r (50 # 100)).
    + eapply (wyields_bind R J J).
      { apply wyields_with_rng; [apply stream_create_event_shape | exact Hkeep]. }
      { exact Hdrop. }
      intros e He. apply wyields_ret; [| exact Hdrop].
      right. split.
      * exists e. split; [reflexivity |].
        eapply built_type, factory_event_built, He.
      * exists memory. split; [exact Hmemory | apply Hrepeat; reflexivity].
    + apply Hjourney.
  - eapply (wyields_bind R J J);
      [apply wyields_with_rng; [apply yields_randint; lia | exact Hkeep]
      | exact Hdrop |].
    intros n _. apply Hjourney.
Qed.

(** X4: a streaming session that returns is either a browsing journey
    with 1 to 10 views, no more additions and failures together than views,
    no more purchases than additions, at most one review and only after a
    purchase, no more returns than purchases and no other event (so 1 to 41
    events, the first a view), or the single [purchase] of the shortcut, which
    needs a non-empty memory. *)
Theorem stream_session_is_a_funnel product_catalog w events w' :
  Stream.generate_user_session product_catalog w = (Ret events, w') ->
  (stream_funnel events /\ (1 <= List.length events <= 41)%nat) \/
  (Stream.recent_user_activity w <> [] /\
   exists e, events = [e] /\ has_type e "purchase").
Proof.
  intros E.
  pose proof (stream_session_funnel True
                (fun d => d = Stream.recent_user_activity w) product_catalog
                (fun _ => I) w eq_refl) as H.
  apply (post_returned _ _ _ _ _ _ H) in E.
  destruct E as [[Hf | [Hs (d & -> & Hd)]] _].
  - left. split; [exact Hf |].
    destruct Hf as (Hv & Ha & Hb & Hw & Hw' & Hr & Hlen & _). lia.
  - right. split; [exact Hd | exact Hs].
Qed.

Lemma stream_session_is_a_funnel_witness :
  (stream_funnel
     (match returned (Stream.generate_user_session sample_catalog fresh_world)
      with Some events => events | None => [] end) /\
   (1 <= List.length
           (match returned (Stream.generate_user_session sample_catalog fresh_world)
            with Some events => events | None => [] end) <= 41)%nat) \/
  (Stream.recent_user_activity fresh_world <> [] /\
   exists e,
     (match returned (Stream.generate_user_session sample_catalog fresh_world)
      with Some events => events | None => [] end) = [e] /\
     has_type e "purchase").
Proof.
  apply (stream_session_is_a_funnel sample_catalog fresh_world _
           (snd (Stream.generate_user_session sample_catalog fresh_world))).
  vm_compute. reflexivity.
Defined.

(** ** The backfill scheduler *)

Lemma bisect_loop_spec (a : list Q) (x : Q) (fuel : nat) :
  forall lo hi,
    (lo <= hi)%nat -> (hi - lo <= fuel)%nat ->
    exists i,
      BackfillMain.bisect_loop fuel a x lo hi = i /\
      (lo <= i <= hi)%nat /\
      (i = lo \/ Qltb x (nth (i - 1) a 0%Q) = false) /\
      (i = hi \/ Qltb x (nth i a 0%Q) = true).
Proof.
  induction fuel as [| fuel IH]; intros lo hi Hle Hfuel;
    cbn [BackfillMain.bisect_loop].
  - exists lo. assert (lo = hi) by lia. subst. repeat split; auto.
  - destruct (lo <? hi)%nat eqn:E.
    + apply Nat.ltb_lt in E.
      set (mid := ((lo + hi) / 2)%nat).
      assert (Hmid : (lo <= mid < hi)%nat).
      { subst mid. split.
        - apply Nat.div_le_lower_bound; lia.
        - apply Nat.Div0.div_lt_upper_bound; lia. }
      destruct (Qltb x (nth mid a 0%Q)) eqn:Hx.
      * destruct (IH lo mid) as (i & Ei & H1 & H2 & H3); [lia | lia |].
        exists i. split; [exact Ei | split; [lia | split; [exact H2 |]]].
        destruct H3 as [-> | H3]; right; assumption.
      * destruct (IH (mid + 1)%nat hi) as (i & Ei & H1 & H2 & H3); [lia | lia |].
        exists i. split; [exact Ei | split; [lia | split; [| exact H3]]].
        destruct H2 as [-> | H2]; right; [| exact H2].
        replace (mid + 1 - 1)%nat with mid by lia. exact Hx.
    + apply Nat.ltb_ge in E. exists lo. assert (lo = hi) by lia. subst.
      repeat split; auto.
Qed.



Lemma nth_error_range (n : Z) (i : nat) :
  (i < Z.to_nat n)%nat -> nth_error (range n) i = Some (Z.of_nat i).
Proof.
  intros Hi. unfold range.
  rewrite (nth_error_nth' _ (Z.of_nat 0)) by (rewrite length_map, length_seq; exact Hi).
  rewrite map_nth, seq_nth by exact Hi. reflexivity.
Qed.

(** The hour drawn by the scheduler is the index [bisect] finds among the
    accumulated weights. *)
Lemma session_hour_is_bisect (g : rng) :
  exists r g' i,
    random g = (Ret r, g') /\ (0 <= r)%Q /\ (r < 1)%Q /\
    (i <= 23)%nat /\
    (i = 0%nat \/
     Qltb (r * 84)
       (nth (i - 1) (map inject_Z (BackfillMain.accumulate BackfillMain.weights)) 0%Q)
       = false) /\
    (i = 23%nat \/
     Qltb (r * 84)
       (nth i (map inject_Z (BackfillMain.accumulate BackfillMain.weights)) 0%Q)
       = true) /\
    BackfillMain.choices1 BackfillMain.hours BackfillMain.weights g
      = (Ret (Z.of_nat i), g').
Proof.
  destruct (yields_total _ _ g (yields_random False)) as (r & g' & E & H0 & H1).
  destruct (bisect_loop_spec
              (map inject_Z (BackfillMain.accumulate BackfillMain.weights))
              (r * 84) 23 0 23 ltac:(lia) ltac:(lia)) as (i & Ei & Hi & H2 & H3).
  exists r, g', i.
  split; [exact E | split; [exact H0 | split; [exact H1 |]]].
  split; [lia | split; [exact H2 | split; [exact H3 |]]].
  unfold BackfillMain.choices1.
  change (negb (List.length (BackfillMain.accumulate BackfillMain.weights)
                =? List.length BackfillMain.hours)%nat) with false.
  change (rev (BackfillMain.accumulate BackfillMain.weights))
    with (84 :: tl (rev (BackfillMain.accumulate BackfillMain.weights))).
  cbv iota. change (84 <=? 0) with false. cbv iota.
  change (List.length BackfillMain.hours - 1)%nat with 23%nat.
  change (inject_Z 84) with (84 : Q).
  unfold bind. rewrite E.
  change (BackfillMain.bisect
            (map inject_Z (BackfillMain.accumulate BackfillMain.weights))
            (r * 84) 0 23)
    with (BackfillMain.bisect_loop 23
            (map inject_Z (BackfillMain.accumulate BackfillMain.weights))
            (r * 84) 0 23).
  rewrite Ei.
  unfold BackfillMain.hours.
  rewrite nth_error_range by (change (Z.to_nat 24) with 24%nat; lia).
  reflexivity.
Qed.





Lemma yields_session_hour (R : Prop) :
  yields R (BackfillMain.choices1 BackfillMain.hours BackfillMain.weights)
    (fun hour => 0 <= hour <= 23).
Proof.
  intros g.
  destruct (session_hour_is_bisect g) as (r & g' & i & _ & _ & _ & Hi & _ & _ & Hrun).
  unfold post. rewrite Hrun. lia.
Qed.

Lemma yields_session_start_time (R : Prop) (current_day : Z) :
  yields R (BackfillMain.session_start_time current_day)
    (fun t => BackfillMain.midnight current_day <= t
              <= BackfillMain.midnight current_day + 86399).
Proof.
  unfold BackfillMain.session_start_time.
  eapply yields_bind; [apply yields_session_hour |]. intros hour Hh.
  eapply yields_bind; [apply yields_randint; lia |]. intros minute Hm.
  eapply yields_bind; [apply yields_randint; lia |]. intros second Hs.
  cbv beta in *. apply yields_ret. lia.
Qed.

(** X6: the scheduler always produces a session start, and it lies on the
    day it was drawn for, between 00:00:00 and 23:59:59. *)
Theorem session_starts_on_its_day :
  forall current_day g,
    exists t g',
      BackfillMain.session_start_time current_day g = (Ret t, g') /\
      BackfillMain.midnight current_day <= t
        < BackfillMain.midnight (current_day + 1).
Proof.
  intros d g.
  destruct (yields_total _ _ g (yields_session_start_time False d))
    as (t & g' & E & Ht).
  exists t, g'. split; [exact E |]. unfold BackfillMain.midnight in *. lia.
Qed.

(** ** Failing computations *)











(** ** The backfill run *)

Lemma num_sessions_bounds_cases (current_day : Z) :
  Backfill.num_sessions_bounds current_day = (175, 325) \/
  Backfill.num_sessions_bounds current_day = (262, 487).
Proof.
  unfold Backfill.num_sessions_bounds, Backfill.sessions_multiplier.
  destruct (4 <=? Backfill.weekday current_day); [right | left]; reflexivity.
Qed.

Lemma yields_num_sessions (R : Prop) (current_day : Z) :
  yields R (Backfill.num_sessions current_day) (fun n => 175 <= n <= 487).
Proof.
  unfold Backfill.num_sessions.
  destruct (num_sessions_bounds_cases current_day) as [-> | ->].
  - eapply yields_weaken; [apply yields_randint; lia |]. intros n Hn. cbv beta in Hn. lia.
  - eapply yields_weaken; [apply yields_randint; lia |]. intros n Hn. cbv beta in Hn. lia.
Qed.



Section BackfillRun.

Variable R : Prop.
Variable product_catalog : list Product.
Variable today : Z.
Hypothesis catalog_loaded : product_catalog = [] -> R.






End BackfillRun.



(** ** What a streaming session remembers *)



Section StreamMemory.

Variable product_catalog : list Product.
Variables session_id user_id source : string.
Variable before : list (string * Product).
Hypothesis catalog_loaded : product_catalog <> [].



Let emitted := stream_event product_catalog session_id user_id source.




End StreamMemory.

Lemma stream_event_user cat session_id user_id source e :
  stream_event cat session_id user_id source e ->
  get "user_id" e = Some (VStr user_id).
Proof.
  intros (ty & p & He & _). eapply built_user, factory_event_built, He.
Qed.




(** ** The streaming loop *)


(** ** The users of the events *)

Lemma backfill_event_user cat session_id user_id source session_timestamp e :
  backfill_event cat session_id user_id source session_timestamp e ->
  get "user_id" e = Some (VStr user_id).
Proof.
  intros (ty & p & t & He & _). eapply built_user, factory_event_built, He.
Qed.

Lemma users_among_one population user_id events :
  new_user population user_id ->
  Forall (fun e => get "user_id" e = Some (VStr user_id)) events ->
  users_among population events.
Proof.
  intros Hu Hev. eapply Forall_impl; [| exact Hev].
  intros e He. exists user_id. auto.
Qed.

Lemma backfill_session_users (R : Prop) product_catalog session_timestamp :
  (product_catalog = [] -> R) ->
  yields R (Backfill.generate_user_session product_catalog session_timestamp)
    (users_among 250).
Proof.
  intros HR. unfold Backfill.generate_user_session.
  eapply yields_bind; [apply yields_uuid4 |]. intros u _.
  eapply yields_bind; [apply yields_randint; lia |]. intros n Hn.
  eapply yields_bind; [apply yields_choice; discriminate |]. intros source Hsource.
  eapply yields_bind; [apply yields_randint; lia |]. intros views Hviews.
  cbv beta in Hn, Hviews.
  set (session_id := ("session-" ++ str_uuid u)%string).
  set (user_id := ("user-" ++ str_int n)%string).
  eapply yields_bind.
  { apply yields_for_each with
      (I := fun st : list event * list Product =>
              Forall (backfill_event product_catalog session_id user_id source
                        session_timestamp) (fst st) /\
              causally_ordered (fst st) /\
              cart_ok product_catalog (fst st) (snd st)).
    - intros i st Hi Hst. apply In_range in Hi.
      apply backfill_view_step; [exact HR | lia | exact Hst].
    - split; [constructor | split; [apply causally_ordered_nil | intros p []]]. }
  intros [events cart] Hbrowse.
  eapply yields_bind; [apply backfill_checkout; exact Hbrowse |].
  intros [events' purchased] (Hev & Hcausal & Hcart & Hbought).
  cbn [fst snd] in *.
  eapply yields_weaken.
  - apply yields_for_each with
      (I := fun evs : list event =>
              Forall (backfill_event product_catalog session_id user_id source
                        session_timestamp) evs /\
              causally_ordered evs /\ cart_ok product_catalog evs cart).
    + intros item evs Hitem Hevs.
      apply backfill_return_step; [auto | exact Hevs].
    + auto.
  - intros evs (Hevs & _). apply users_among_one with (user_id := user_id).
    + exists n. split; [exact Hn | reflexivity].
    + eapply Forall_impl; [| exact Hevs]. intros e. apply backfill_event_user.
Qed.

(** What holds of the events of every session holds of the events of the run. *)
Lemma backfill_main_forall (R : Prop) product_catalog today (P : event -> Prop) :
  (forall session_timestamp,
     yields R (Backfill.generate_user_session product_catalog session_timestamp)
       (Forall P)) ->
  yields R (BackfillMain.main product_catalog today) (Forall P).
Proof.
  intros Hsession. unfold BackfillMain.main.
  apply yields_for_each; [| constructor].
  intros day all _ Hall. unfold BackfillMain.day_turn.
  eapply yields_bind; [apply yields_num_sessions |]. intros n _.
  apply yields_for_each; [| exact Hall].
  intros x all' _ Hall'. unfold BackfillMain.session_turn.
  eapply yields_bind; [apply yields_session_start_time |]. intros start _.
  eapply yields_bind; [apply Hsession |]. intros events Hevents.
  apply yields_ret. apply Forall_app. auto.
Qed.

Lemma remembers_users_append d user_id p :
  new_user 500 user_id -> remembers_users d ->
  remembers_users (deque_append Stream.maxlen d (user_id, p)).
Proof.
  unfold remembers_users, deque_append. intros Hu Hd.
  assert (H : Forall (fun entry : string * Product => new_user 500 (fst entry))
                (d ++ [(user_id, p)])).
  { apply Forall_app. split; [exact Hd | constructor; [exact Hu | constructor]]. }
  destruct (Stream.maxlen <? List.length (d ++ [(user_id, p)]))%nat; [| exact H].
  destruct (d ++ [(user_id, p)]) as [| x l]; [constructor |].
  inversion H; assumption.
Qed.

Lemma stream_session_users (R : Prop) product_catalog :
  (product_catalog = [] -> R) ->
  forall w, remembers_users (Stream.recent_user_activity w) ->
    post (Stream.generate_user_session product_catalog) w
      (fun events w' =>
         users_among 500 events /\ remembers_users (Stream.recent_user_activity w'))
      (fun w' => R /\ remembers_users (Stream.recent_user_activity w')).
Proof.
  intros HR w Hw.
  set (memory0 := Stream.recent_user_activity w).
  set (J := remembers_users).
  set (J0 := fun d => d = memory0 /\ J d).
  assert (Hweak : forall d, J0 d -> J d) by (intros d [_ H]; exact H).
  assert (Hkeep : forall d, J0 d -> J0 d) by auto.
  cut (wyields R J0 J (Stream.generate_user_session product_catalog)
         (users_among 500)).
  { intros H. apply H. split; [reflexivity | exact Hw]. }
  assert (Hjourney : forall session_id user_id source,
    new_user 500 user_id ->
    wyields R J0 J
      (Stream.browse_and_buy product_catalog session_id user_id source)
      (users_among 500)).
  { intros session_id user_id source Huser.
    eapply wyields_consequence.
    - apply (stream_browse_and_buy R product_catalog session_id user_id source J HR).
      intros d p Hd _. apply remembers_users_append; assumption.
    - exact Hweak.
    - auto.
    - intros events [Hev _]. apply users_among_one with (user_id := user_id); [exact Huser |].
      eapply Forall_impl; [| exact Hev]. intros e. apply stream_event_user. }
  unfold Stream.generate_user_session.
  eapply (wyields_bind R J0 J0 J);
    [apply wyields_with_rng; [apply yields_uuid4 | exact Hkeep] | exact Hweak |].
  intros u _. set (session_id := ("session-" ++ str_uuid u)%string).
  eapply (wyields_bind R J0 J0 J);
    [apply wyields_with_rng; [apply yields_choice; discriminate | exact Hkeep]
    | exact Hweak |].
  intros source Hsource.
  eapply (wyields_bind R J0 J0 J);
    [apply wyields_read_memory; exact Hkeep | exact Hweak |].
  intros memory [-> _].
  eapply (wyields_bind R J0 J0 J) with (P := fun b : bool => b = true -> memory0 <> []).
  { destruct memory0 as [| m0 rest].
    - apply wyields_ret; [discriminate | exact Hkeep].
    - eapply (wyields_bind R J0 J0 J0);
        [apply wyields_with_rng; [apply yields_random | exact Hkeep] | exact Hkeep |].
      intros r _. apply wyields_ret; [discriminate | exact Hkeep]. }
  { exact Hweak. }
  intros [|] Hrepeat.
  - eapply (wyields_bind R J0 J0 J).
    { apply wyields_with_rng; [apply yields_choice | exact Hkeep].
      intros E. exfalso. apply Hrepeat; [reflexivity | exact E]. }
    { exact Hweak. }
    intros [user_id prev_product] Hentry.
    assert (Huser : new_user 500 user_id).
    { unfold remembers_users in Hw. rewrite Forall_forall in Hw.
      apply (Hw (user_id, prev_product) Hentry). }
    eapply (wyields_bind R J0 J0 J);
      [apply wyields_with_rng; [apply yields_random | exact Hkeep] | exact Hweak |].
    intros r _. destruct (Qltb r (50 # 100)).
    + eapply (wyields_bind R J0 J J).
      { apply wyields_with_rng; [apply stream_create_event_shape | exact Hweak]. }
      { auto. }
      intros e He. apply wyields_ret; [| auto].
      apply users_among_one with (user_id := user_id); [exact Huser |].
      constructor; [| constructor].
      eapply built_user, factory_event_built, He.
    + apply Hjourney, Huser.
  - eapply (wyields_bind R J0 J0 J);
      [apply wyields_with_rng; [apply yields_randint; lia | exact Hkeep]
      | exact Hweak |].
    intros n Hn. apply Hjourney. exists n. split; [exact Hn | reflexivity].
Qed.

(** ** The pacing of the stream *)

Lemma uniform_between (a b r : Q) :
  (a <= b)%Q -> (0 <= r)%Q -> (r < 1)%Q ->
  (a <= a + (b - a) * r)%Q /\ (a + (b - a) * r <= b)%Q.
Proof.
  intros Hab H0 H1.
  assert (H : (0 <= (b - a) * r)%Q).
  { apply Qmult_le_0_compat; [lra | exact H0]. }
  assert (H' : (0 <= (b - a) * (1 - r))%Q).
  { apply Qmult_le_0_compat; lra. }
  split; [lra |].
  setoid_replace ((b - a) * (1 - r))%Q with ((b - a) - (b - a) * r)%Q in H' by ring.
  lra.
Qed.

Lemma sleep_time_by_hour g :
  exists hour g1 t g',
    StreamPacing.local_hour g = (Ret hour, g1) /\
    0 <= hour < 24 /\
    StreamPacing.get_current_sleep_time g = (Ret t, g') /\
    (18 <= hour <= 22 -> (1 # 10 <= t)%Q /\ (t <= 5 # 10)%Q) /\
    (~ 18 <= hour <= 22 -> (8 # 10 <= t)%Q /\ (t <= 25 # 10)%Q).
Proof.
  unfold StreamPacing.get_current_sleep_time, StreamPacing.local_hour.
  unfold bind at 2 3. unfold bind at 1. unfold next_raw, ret.
  set (hour := Z.of_N (draws g (cursor g) mod 24)).
  set (g1 := mk_rng (draws g) (S (cursor g))).
  assert (Hhour : 0 <= hour < 24).
  { unfold hour. pose proof (N.mod_upper_bound (draws g (cursor g)) 24%N ltac:(discriminate)) as H.
    revert H. generalize (draws g (cursor g) mod 24)%N. intros x H. lia. }
  destruct ((18 <=? hour) && (hour <=? 22)) eqn:Epeak.
  - destruct (yields_total (uniform (1 # 10) (5 # 10)) _ g1
                (yields_uniform False (1 # 10) (5 # 10) ltac:(lra)))
      as (t & g' & E & r & H0 & H1 & ->).
    exists hour, g1, ((1 # 10) + ((5 # 10) - (1 # 10)) * r)%Q, g'.
    split; [reflexivity | split; [exact Hhour |]].
    split; [exact E | split].
    + intros _. apply uniform_between; [lra | exact H0 | exact H1].
    + intros Hn. apply andb_true_iff in Epeak.
      destruct Epeak as [H18%Z.leb_le H22%Z.leb_le]. lia.
  - destruct (yields_total (uniform (8 # 10) (25 # 10)) _ g1
                (yields_uniform False (8 # 10) (25 # 10) ltac:(lra)))
      as (t & g' & E & r & H0 & H1 & ->).
    exists hour, g1, ((8 # 10) + ((25 # 10) - (8 # 10)) * r)%Q, g'.
    split; [reflexivity | split; [exact Hhour |]].
    split; [exact E | split].
    + intros Hp. apply andb_false_iff in Epeak.
      destruct Epeak as [H18%Z.leb_gt | H22%Z.leb_gt]; lia.
    + intros _. apply uniform_between; [lra | exact H0 | exact H1].
Qed.

(** X12: the pause after a published event follows the local hour: from
    18:00 to 22:59 it lies between 0.1 and 0.5 seconds, at every other hour
    between 0.8 and 2.5 seconds, so a pause at a peak hour is always shorter
    than one off peak; the call never fails. *)
Theorem sleep_time_follows_the_hour :
  forall g,
    exists hour g1 t g',
      StreamPacing.local_hour g = (Ret hour, g1) /\
      0 <= hour < 24 /\
      StreamPacing.get_current_sleep_time g = (Ret t, g') /\
      (18 <= hour <= 22 -> (1 # 10 <= t)%Q /\ (t <= 5 # 10)%Q) /\
      (~ 18 <= hour <= 22 -> (8 # 10 <= t)%Q /\ (t <= 25 # 10)%Q).
Proof.
  exact sleep_time_by_hour.
Qed.

Lemma sleep_time_bounds g :
  exists t g',
    StreamPacing.get_current_sleep_time g = (Ret t, g') /\
    (1 # 10 <= t)%Q /\ (t <= 25 # 10)%Q.
Proof.
  destruct (sleep_time_by_hour g) as (hour & g1 & t & g' & _ & _ & E & Hpeak & Hoff).
  exists t, g'. split; [exact E |].
  destruct (Z_le_dec 18 hour) as [H18 |]; [destruct (Z_le_dec hour 22) as [H22 |] |].
  - destruct Hpeak as [Hlo Hhi]; [lia |]. split; lra.
  - destruct Hoff as [Hlo Hhi]; [lia |]. split; lra.
  - destruct Hoff as [Hlo Hhi]; [lia |]. split; lra.
Qed.

Lemma total_app xs ys : (total (xs ++ ys) == total xs + total ys)%Q.
Proof.
  induction xs as [| x xs IH]; simpl; [lra |]. rewrite IH. lra.
Qed.


Lemma paced_refl p : paced [] p p.
Proof.
  unfold paced. rewrite app_nil_r.
  split; [reflexivity |]. exists [].
  split; [reflexivity | split; [constructor | simpl; lra]].
Qed.

Lemma paced_trans xs ys p1 p2 p3 :
  paced xs p1 p2 -> paced ys p2 p3 -> paced (xs ++ ys) p1 p3.
Proof.
  intros (E1 & t1 & L1 & F1 & S1) (E2 & t2 & L2 & F2 & S2). unfold paced.
  rewrite E2, E1, app_assoc. split; [reflexivity |].
  exists (t1 ++ t2). split; [| split].
  - rewrite !length_app. lia.
  - apply Forall_app. split; assumption.
  - rewrite total_app, S2, S1. lra.
Qed.

Lemma publish_session_run session_events :
  forall p,
    exists p',
      for_each session_events
        (fun event (_ : unit) =>
           _ <- StreamPacing.publish_event event ;;
           seconds <- StreamPacing.in_world
                        (Stream.with_rng StreamPacing.get_current_sleep_time) ;;
           StreamPacing.sleep seconds) tt p = (Ret tt, p') /\
      paced session_events p p' /\
      Stream.recent_user_activity (StreamPacing.state p')
        = Stream.recent_user_activity (StreamPacing.state p).
Proof.
  induction session_events as [| e rest IH]; intros p.
  - exists p. split; [reflexivity | split; [apply paced_refl | reflexivity]].
  - cbn [for_each].
    destruct (sleep_time_bounds (Stream.gen (StreamPacing.state p)))
      as (t & g' & E & Hlo & Hhi).
    set (p1 := StreamPacing.mk_process
                 (Stream.mk_world g' (Stream.recent_user_activity (StreamPacing.state p)))
                 (StreamPacing.published p ++ [e])
                 (StreamPacing.slept p + t)%Q).
    destruct (IH p1) as (p' & Erest & Hpaced & Hmem).
    exists p'. split; [| split].
    + unfold bind at 1. unfold bind at 1.
      unfold StreamPacing.publish_event at 1.
      unfold bind at 1. unfold StreamPacing.in_world at 1.
      unfold Stream.with_rng at 1. cbn [StreamPacing.state Stream.gen
        Stream.recent_user_activity StreamPacing.published StreamPacing.slept].
      rewrite E. unfold StreamPacing.sleep at 1.
      cbn [StreamPacing.state StreamPacing.published StreamPacing.slept].
      exact Erest.
    + change (e :: rest) with ([e] ++ rest).
      apply (paced_trans [e] rest p p1 p'); [| exact Hpaced].
      unfold paced, p1. cbn [StreamPacing.published StreamPacing.slept].
      split; [reflexivity |]. exists [t].
      split; [reflexivity | split; [| simpl; lra]].
      constructor; [split; assumption | constructor].
    + rewrite Hmem. reflexivity.
Qed.

(** One turn of the loop: the session's events are published one by one,
    and an exception of the session leaves the turn at once. *)
Lemma paced_turn_cases product_catalog p :
  match Stream.generate_user_session product_catalog (StreamPacing.state p) with
  | (Ret session_events, w') =>
      exists p',
        StreamPacing.turn product_catalog p = (Ret tt, p') /\
        paced session_events p p' /\
        Stream.recent_user_activity (StreamPacing.state p')
          = Stream.recent_user_activity w'
  | (Raise e, w') =>
      StreamPacing.turn product_catalog p
        = (Raise e, StreamPacing.mk_process w' (StreamPacing.published p)
                      (StreamPacing.slept p))
  end.
Proof.
  unfold StreamPacing.turn.
  destruct (Stream.generate_user_session product_catalog (StreamPacing.state p))
    as [[session_events | e] w'] eqn:E.
  - set (p1 := StreamPacing.mk_process w' (StreamPacing.published p)
                 (StreamPacing.slept p)).
    destruct (publish_session_run session_events p1) as (p' & Erun & Hpaced & Hsame).
    exists p'. split; [| split].
    + unfold bind at 1. unfold StreamPacing.in_world at 1. rewrite E. exact Erun.
    + exact Hpaced.
    + exact Hsame.
  - unfold bind at 1. unfold StreamPacing.in_world at 1. rewrite E. reflexivity.
Qed.



(** What every session keeps of the memory and gives to its events holds
    of the process after any number of turns, with or without exceptions. *)
Lemma paced_loop_invariant (J : list (string * Product) -> Prop) (P : event -> Prop)
  product_catalog :
  (forall w, J (Stream.recent_user_activity w) ->
     post (Stream.generate_user_session product_catalog) w
       (fun events w' => Forall P events /\ J (Stream.recent_user_activity w'))
       (fun w' => J (Stream.recent_user_activity w'))) ->
  forall n p,
    J (Stream.recent_user_activity (StreamPacing.state p)) ->
    Forall P (StreamPacing.published p) ->
    J (Stream.recent_user_activity
         (StreamPacing.state (StreamPacing.loop product_catalog n p))) /\
    Forall P (StreamPacing.published (StreamPacing.loop product_catalog n p)).
Proof.
  intros Hsession. induction n as [| n IH]; intros p HJ HP; [split; assumption |].
  cbn [StreamPacing.loop].
  pose proof (paced_turn_cases product_catalog p) as Hturn.
  pose proof (Hsession (StreamPacing.state p) HJ) as Hpost. unfold post in Hpost.
  destruct (Stream.generate_user_session product_catalog (StreamPacing.state p))
    as [[session_events | e] w'].
  - destruct Hturn as (p' & -> & (Hpub & _) & Hsame). destruct Hpost as [Hev Hw'].
    apply IH.
    + rewrite Hsame. exact Hw'.
    + rewrite Hpub. apply Forall_app. split; assumption.
  - rewrite Hturn. apply IH; cbn; assumption.
Qed.


(** X11: the users of the events come from two fixed populations.  Every
    event of a backfill run names one of [user-1] to [user-250].  Every event
    the streaming loop publishes names one of [user-1] to [user-500]: a repeat
    user is always taken from the memory, which only ever holds users the
    loop made up before. *)
Theorem users_come_from_fixed_populations :
  (forall p rest today g,
     exists all_historical_events g',
       BackfillMain.main (p :: rest) today g = (Ret all_historical_events, g') /\
       users_among 250 all_historical_events) /\
  (forall product_catalog n g,
     users_among 500
       (StreamPacing.published (StreamPacing.main product_catalog n g))).
Proof.
  split.
  - intros p rest today g. apply yields_total.
    apply backfill_main_forall. intros session_timestamp.
    apply backfill_session_users. discriminate.
  - intros product_catalog n g. unfold StreamPacing.main.
    destruct product_catalog as [| p rest]; [constructor |].
    apply (paced_loop_invariant remembers_users).
    + intros w Hw. eapply post_weaken.
      * apply (stream_session_users True (p :: rest) (fun _ => I) w Hw).
      * auto.
      * intros w' [_ Hw']. exact Hw'.
    + constructor.
    + constructor.
Qed.


(** ** The products of a session, type by type *)

Lemma included_nil {A : Type} (ys : list A) : included [] ys.
Proof. exists ys. apply Permutation_refl. Qed.

Lemma included_snoc_right {A : Type} (xs ys : list A) (a : A) :
  included xs ys -> included xs (ys ++ [a]).
Proof.
  intros [r H]. exists (r ++ [a]). rewrite app_assoc.
  apply Permutation_app_tail, H.
Qed.

Lemma included_snoc_both {A : Type} (xs ys : list A) (a : A) :
  included xs ys -> included (xs ++ [a]) (ys ++ [a]).
Proof.
  intros [r H]. exists r.
  eapply Permutation_trans; [| apply Permutation_app_tail, H].
  rewrite <- !app_assoc. apply Permutation_app_head, Permutation_app_comm.
Qed.

Lemma included_map {A B : Type} (f : A -> B) (xs ys : list A) :
  included xs ys -> included (map f xs) (map f ys).
Proof.
  intros [r H]. exists (map f r). rewrite <- map_app.
  apply Permutation_map, H.
Qed.

Lemma included_one {A : Type} (x : A) (ys : list A) : In x ys -> included [x] ys.
Proof.
  intros H. apply in_split in H. destruct H as (l1 & l2 & ->).
  exists (l1 ++ l2). simpl. apply Permutation_middle.
Qed.

Lemma firstn_list_set {A : Type} (v : A) (l : list A) :
  forall m j, firstn m (list_set j v l) = list_set j v (firstn m l).
Proof.
  induction l as [| h t IH]; intros m j.
  - destruct m; destruct j; reflexivity.
  - destruct m as [| m]; destruct j as [| j]; simpl; try reflexivity.
    rewrite IH. reflexivity.
Qed.

Lemma list_set_beyond {A : Type} (v : A) (l : list A) :
  forall j, (List.length l <= j)%nat -> list_set j v l = l.
Proof.
  induction l as [| h t IH]; intros j Hj; [destruct j; reflexivity |].
  destruct j as [| j]; simpl in *; [lia |]. rewrite IH by lia. reflexivity.
Qed.

Lemma list_set_swaps {A : Type} (x y : A) (l : list A) :
  forall j, nth_error l j = Some x ->
    Permutation (x :: list_set j y l) (l ++ [y]).
Proof.
  induction l as [| h t IH]; intros j Hj; [destruct j; discriminate |].
  destruct j as [| j]; simpl in *.
  - injection Hj as ->. apply perm_skip. apply Permutation_cons_append.
  - eapply Permutation_trans; [apply perm_swap |]. apply perm_skip, IH, Hj.
Qed.

Lemma firstn_snoc_nth {A : Type} (y : A) (l : list A) :
  forall m, nth_error l m = Some y -> firstn (S m) l = firstn m l ++ [y].
Proof.
  induction l as [| h t IH]; intros m Hm; [destruct m; discriminate |].
  destruct m as [| m]; simpl in *.
  - injection Hm as ->. reflexivity.
  - rewrite <- IH by exact Hm. reflexivity.
Qed.

Lemma yields_sample_loop_included {A : Type} (R : Prop) (k : nat) :
  forall n (pool : list A),
    (k <= n <= List.length pool)%nat ->
    yields R (sample_loop k n pool) (fun l => included l (firstn n pool)).
Proof.
  induction k as [| k IH]; intros n pool Hn; simpl.
  - apply yields_ret. apply included_nil.
  - eapply yields_bind; [apply (yields_randbelow R); lia |].
    intros j Hj. cbv beta in Hj.
    destruct (nth_error pool (N.to_nat j)) as [x |] eqn:Hx.
    2: { apply nth_error_None in Hx. lia. }
    destruct (nth_error pool (n - 1)) as [y |] eqn:Hy.
    2: { apply nth_error_None in Hy. lia. }
    eapply yields_bind.
    + apply IH. rewrite length_list_set. lia.
    + intros rest [r Hrest]. apply yields_ret. exists r.
      rewrite firstn_list_set in Hrest.
      replace n with (S (n - 1)) at 1 by lia.
      rewrite (firstn_snoc_nth y) by exact Hy.
      simpl. eapply Permutation_trans; [apply perm_skip, Hrest |].
      destruct (Nat.eq_dec (N.to_nat j) (n - 1)) as [Ej | Ej].
      * rewrite list_set_beyond by (rewrite length_firstn; lia).
        rewrite Ej, Hy in Hx. injection Hx as ->.
        apply Permutation_cons_append.
      * apply list_set_swaps.
        rewrite nth_error_firstn.
        destruct (N.to_nat j <? n - 1)%nat eqn:Elt; [exact Hx |].
        apply Nat.ltb_ge in Elt. lia.
Qed.

Lemma yields_sample_included {A : Type} (R : Prop) (population : list A) (k : Z) :
  (~ 0 <= k <= Z.of_nat (List.length population) -> R) ->
  yields R (sample population k) (fun l => included l population).
Proof.
  intros HR. unfold sample.
  destruct ((k <? 0) || (Z.of_nat (List.length population) <? k)) eqn:E.
  - apply yields_raise, HR. apply orb_true_iff in E. lia.
  - apply orb_false_iff in E. destruct E as [E1 E2].
    apply Z.ltb_ge in E1, E2.
    eapply yields_weaken.
    + apply (yields_sample_loop_included R); lia.
    + intros l Hl. rewrite firstn_all in Hl. exact Hl.
Qed.

Lemma yields_for_each_prefix {A St : Type} (R : Prop) (I : list A -> St -> Prop)
  (body : A -> St -> M rng St) (xs : list A) :
  (forall done x st, I done st -> yields R (body x st) (I (done ++ [x]))) ->
  forall done st, I done st -> yields R (for_each xs body st) (I (done ++ xs)).
Proof.
  intros Hbody. induction xs as [| x xs IH]; intros done st Hst; simpl.
  - rewrite app_nil_r. apply yields_ret, Hst.
  - eapply yields_bind; [apply Hbody, Hst |].
    intros st' Hst'. replace (done ++ x :: xs) with ((done ++ [x]) ++ xs).
    + apply IH, Hst'.
    + rewrite <- app_assoc. reflexivity.
Qed.

Lemma products_of_snoc event_type events e session_id user_id source t p :
  built session_id user_id source t p e ->
  products_of event_type (events ++ [e])
    = products_of event_type events ++ product_if t event_type p.
Proof.
  intros [_ _ _ Hty Hpid]. unfold products_of, product_if.
  rewrite flat_map_app. simpl. rewrite app_nil_r.
  rewrite (type_is_has_type _ _ _ Hty), Hpid. reflexivity.
Qed.

Lemma ledger_nil : ledger [] [] [] [] [].
Proof. repeat split. Qed.

Lemma ledger_snoc events e session_id user_id source t p a b w r :
  ledger events a b w r -> built session_id user_id source t p e ->
  ledger (events ++ [e])
    (a ++ product_if t "add_to_cart" p) (b ++ product_if t "purchase" p)
    (w ++ product_if t "submit_review" p) (r ++ product_if t "return_item" p).
Proof.
  intros (Ha & Hb & Hw & Hr) He. unfold ledger.
  rewrite !(products_of_snoc _ _ _ _ _ _ _ _ He), Ha, Hb, Hw, Hr.
  repeat split.
Qed.

(** The ledger after one more event built by a factory. *)
Ltac ledger_step Hledger He :=
  let H := fresh "H" in
  pose proof (ledger_snoc _ _ _ _ _ _ _ _ _ _ _ Hledger
                (factory_event_built _ _ _ _ _ _ _ _ He)) as H;
  unfold product_if in H;
  cbn [String.eqb Ascii.eqb Bool.eqb] in H;
  rewrite ?app_nil_r in H.

Section BackfillProducts.

Variable R : Prop.
Variable product_catalog : list Product.
Variables session_id user_id source : string.
Variable session_timestamp : Z.
Hypothesis catalog_loaded : product_catalog = [] -> R.

Let browsed (st : list event * list Product) : Prop :=
  ledger (fst st) (map product_id (snd st)) [] [] [].

Lemma backfill_view_step_products i st :
  browsed st ->
  yields R
    (Backfill.view_step product_catalog session_id user_id source
       session_timestamp i st)
    browsed.
Proof.
  intros Hst. destruct st as [events cart].
  unfold browsed, Backfill.view_step, Backfill.add_to_cart_attempt in *.
  cbn [fst snd] in *.
  eapply yields_bind; [apply yields_choice, catalog_loaded |]. intros p _.
  eapply yields_bind; [apply yields_randint; lia |]. intros step _.
  eapply yields_bind; [apply backfill_create_event_shape |]. intros e He.
  ledger_step Hst He.
  eapply yields_bind; [apply yields_random |]. intros r _.
  destruct (Qltb r (40 # 100)); [destruct (in_stock p =? "True")%string |].
  - eapply yields_bind; [apply backfill_create_event_shape |]. intros e' He'.
    ledger_step H He'.
    apply yields_ret. cbn [fst snd]. rewrite map_app. exact H0.
  - apply yields_ret. exact H.
  - apply yields_ret. exact H.
Qed.

Lemma backfill_purchase_step_products additions done item st :
  snd st = done /\ ledger (fst st) additions (map product_id done) [] [] ->
  yields R
    (Backfill.purchase_step session_id user_id source session_timestamp item st)
    (fun st' =>
       snd st' = done ++ [item] /\
       ledger (fst st') additions (map product_id (done ++ [item])) [] []).
Proof.
  intros [Hdone Hst]. destruct st as [events purchased].
  unfold Backfill.purchase_step. cbn [fst snd] in *. subst purchased.
  eapply yields_bind; [apply yields_randint; lia |]. intros minutes _.
  eapply yields_bind; [apply backfill_create_event_shape |]. intros e He.
  ledger_step Hst He.
  apply yields_ret. cbn [fst snd]. rewrite map_app.
  split; [reflexivity | exact H].
Qed.

Lemma backfill_checkout_products events cart :
  ledger events (map product_id cart) [] [] [] ->
  yields R
    (Backfill.checkout session_id user_id source session_timestamp events cart)
    (fun st' =>
       ledger (fst st') (map product_id cart) (map product_id (snd st')) [] [] /\
       included (snd st') cart).
Proof.
  intros Hst.
  assert (Hnone : ledger events (map product_id cart) (map product_id []) [] [] /\
                  included [] cart).
  { split; [exact Hst | apply included_nil]. }
  unfold Backfill.checkout. destruct cart as [| c0 rest] eqn:Ecart.
  - apply yields_ret. exact Hnone.
  - rewrite <- Ecart in *.
    eapply yields_bind; [apply yields_random |]. intros r _.
    destruct (Qltb r (30 # 100)); [| apply yields_ret; exact Hnone].
    eapply yields_bind.
    { apply yields_randint. rewrite Ecart. simpl List.length. lia. }
    intros k Hk. cbv beta in Hk.
    eapply yields_bind; [apply yields_sample_included; lia |].
    intros items Hitems.
    eapply yields_weaken.
    + apply (fun H => yields_for_each_prefix R
               (fun done st =>
                  snd st = done /\
                  ledger (fst st) (map product_id cart) (map product_id done) [] [])
               _ items H []).
      * intros done item st Hdone. apply backfill_purchase_step_products, Hdone.
      * split; [reflexivity | exact Hst].
    + intros [events' purchased] [Hdone Hledger]. cbn [fst snd app] in *.
      subst purchased. split; [exact Hledger | exact Hitems].
Qed.

Lemma backfill_return_step_products additions purchases done item events :
  (exists returns, included returns (map product_id done) /\
                   ledger events additions purchases [] returns) ->
  yields R
    (Backfill.return_step session_id user_id source session_timestamp item events)
    (fun events' =>
       exists returns, included returns (map product_id (done ++ [item])) /\
                       ledger events' additions purchases [] returns).
Proof.
  intros (returns & Hreturns & Hst). unfold Backfill.return_step.
  rewrite map_app. simpl map.
  eapply yields_bind; [apply yields_random |]. intros x _.
  destruct (Qltb x (8 # 100)).
  - eapply yields_bind; [apply yields_randint; lia |]. intros days _.
    eapply yields_bind; [apply backfill_create_event_shape |]. intros e He.
    ledger_step Hst He.
    apply yields_ret. exists (returns ++ [product_id item]).
    split; [apply included_snoc_both, Hreturns | exact H].
  - apply yields_ret. exists returns.
    split; [apply included_snoc_right, Hreturns | exact Hst].
Qed.

End BackfillProducts.

Lemma backfill_session_products (R : Prop) product_catalog session_timestamp :
  (product_catalog = [] -> R) ->
  yields R (Backfill.generate_user_session product_catalog session_timestamp)
    product_funnel.
Proof.
  intros HR. unfold Backfill.generate_user_session.
  eapply yields_bind; [apply yields_uuid4 |]. intros u _.
  eapply yields_bind; [apply yields_randint; lia |]. intros n _.
  eapply yields_bind; [apply yields_choice; discriminate |]. intros source _.
  eapply yields_bind; [apply yields_randint; lia |]. intros views _.
  set (session_id := ("session-" ++ str_uuid u)%string).
  set (user_id := ("user-" ++ str_int n)%string).
  eapply yields_bind.
  { apply yields_for_each with
      (I := fun st : list event * list Product =>
              ledger (fst st) (map product_id (snd st)) [] [] []).
    - intros i st _ Hst. apply backfill_view_step_products; [exact HR | exact Hst].
    - apply ledger_nil. }
  intros [events cart] Hbrowse. cbn [fst snd] in Hbrowse.
  eapply yields_bind; [apply backfill_checkout_products, Hbrowse |].
  intros [events' purchased] [Hledger Hbought]. cbn [fst snd] in *.
  eapply yields_weaken.
  - apply (fun H => yields_for_each_prefix R
             (fun done evs =>
                exists returns,
                  included returns (map product_id done) /\
                  ledger evs (map product_id cart) (map product_id purchased)
                    [] returns)
             _ purchased H []).
    + intros done item evs Hevs. apply backfill_return_step_products, Hevs.
    + exists []. split; [apply included_nil | exact Hledger].
  - cbn [app]. intros evs (returns & Hreturns & (Ha & Hb & Hw & Hr)).
    unfold product_funnel. rewrite Ha, Hb, Hw, Hr.
    split; [exact Hreturns | split; [apply included_nil |]].
    apply included_map, Hbought.
Qed.

Section StreamProducts.

Variable R : Prop.
Variable product_catalog : list Product.
Variables session_id user_id source : string.
Hypothesis catalog_loaded : product_catalog = [] -> R.

Let any_memory : list (string * Product) -> Prop := fun _ => True.

Let browsed (st : list event * list Product) : Prop :=
  ledger (fst st) (map product_id (snd st)) [] [] [].

Lemma stream_view_step_products i st :
  browsed st ->
  yields R (Stream.view_step product_catalog session_id user_id source i st) browsed.
Proof.
  intros Hst. destruct st as [events cart].
  unfold browsed, Stream.view_step, Stream.add_to_cart_attempt in *.
  cbn [fst snd] in *.
  eapply yields_bind; [apply yields_choice, catalog_loaded |]. intros p _.
  eapply yields_bind; [apply stream_create_event_shape |]. intros e He.
  ledger_step Hst He.
  eapply yields_bind; [apply yields_random |]. intros r _.
  destruct (Qltb r Stream.PROB_ADD_TO_CART);
    [destruct (in_stock p =? "True")%string |].
  - eapply yields_bind; [apply stream_create_event_shape |]. intros e' He'.
    ledger_step H He'.
    apply yields_ret. cbn [fst snd]. rewrite map_app. exact H0.
  - eapply yields_bind; [apply stream_create_event_shape |]. intros e' He'.
    ledger_step H He'.
    apply yields_ret. exact H0.
  - apply yields_ret. exact H.
Qed.

Lemma stream_purchase_step_products additions done item st :
  snd st = done /\ ledger (fst st) additions (map product_id done) [] [] ->
  yields R (Stream.purchase_step session_id user_id source item st)
    (fun st' =>
       snd st' = done ++ [item] /\
       ledger (fst st') additions (map product_id (done ++ [item])) [] []).
Proof.
  intros [Hdone Hst]. destruct st as [events purchased].
  unfold Stream.purchase_step. cbn [fst snd] in *. subst purchased.
  eapply yields_bind; [apply stream_create_event_shape |]. intros e He.
  ledger_step Hst He.
  apply yields_ret. cbn [fst snd]. rewrite map_app.
  split; [reflexivity | exact H].
Qed.

Lemma stream_checkout_products events cart :
  ledger events (map product_id cart) [] [] [] ->
  wyields R any_memory any_memory
    (Stream.checkout session_id user_id source events cart)
    (fun st' =>
       ledger (fst st') (map product_id cart) (map product_id (snd st')) [] [] /\
       included (snd st') cart).
Proof.
  intros Hst.
  assert (Hnone : ledger events (map product_id cart) (map product_id []) [] [] /\
                  included [] cart).
  { split; [exact Hst | apply included_nil]. }
  unfold Stream.checkout. destruct cart as [| c0 rest] eqn:Ecart.
  - apply wyields_value. exact Hnone.
  - rewrite <- Ecart in *.
    eapply wyields_seq.
    { apply wyields_rng, yields_choice.
      intros E. rewrite E in Ecart. discriminate. }
    intros abandoned _.
    eapply wyields_seq; [apply wyields_memory_append; intros d _; exact I |].
    intros _ _.
    eapply wyields_seq; [apply wyields_rng, yields_random |].
    intros r _.
    destruct (Qltb r Stream.PROB_CHECKOUT); [| apply wyields_value; exact Hnone].
    eapply wyields_seq.
    { apply wyields_rng, yields_randint.
      rewrite Ecart. simpl List.length. lia. }
    intros k Hk. cbv beta in Hk.
    eapply wyields_seq; [apply wyields_rng, yields_sample_included; lia |].
    intros items Hitems.
    apply wyields_rng. eapply yields_weaken.
    + apply (fun H => yields_for_each_prefix R
               (fun done st =>
                  snd st = done /\
                  ledger (fst st) (map product_id cart) (map product_id done) [] [])
               _ items H []).
      * intros done item st Hdone. apply stream_purchase_step_products, Hdone.
      * split; [reflexivity | exact Hst].
    + intros [events' purchased] [Hdone Hledger]. cbn [fst snd app] in *.
      subst purchased. split; [exact Hledger | exact Hitems].
Qed.

Lemma stream_review_products additions events purchased_items :
  ledger events additions (map product_id purchased_items) [] [] ->
  yields R (Stream.review session_id user_id source events purchased_items)
    (fun events' =>
       exists reviews,
         included reviews (map product_id purchased_items) /\
         ledger events' additions (map product_id purchased_items) reviews []).
Proof.
  intros Hst.
  assert (Hnone : exists reviews,
            included reviews (map product_id purchased_items) /\
            ledger events additions (map product_id purchased_items) reviews []).
  { exists []. split; [apply included_nil | exact Hst]. }
  unfold Stream.review. destruct purchased_items as [| p0 rest] eqn:E;
    [apply yields_ret, Hnone |].
  rewrite <- E in *.
  eapply yields_bind; [apply yields_random |]. intros r _.
  destruct (Qltb r (25 # 100)); [| apply yields_ret, Hnone].
  eapply yields_bind; [apply yields_choice |].
  { intros E'. rewrite E' in E. discriminate. }
  intros item Hitem.
  eapply yields_bind; [apply stream_create_event_shape |]. intros e He.
  ledger_step Hst He.
  apply yields_ret. exists [product_id item].
  split; [| exact H]. apply included_one, in_map, Hitem.
Qed.

Lemma stream_return_step_products additions purchases reviews done item events :
  (exists returns, included returns (map product_id done) /\
                   ledger events additions purchases reviews returns) ->
  yields R (Stream.return_step session_id user_id source item events)
    (fun events' =>
       exists returns, included returns (map product_id (done ++ [item])) /\
                       ledger events' additions purchases reviews returns).
Proof.
  intros (returns & Hreturns & Hst). unfold Stream.return_step.
  rewrite map_app. simpl map.
  eapply yields_bind; [apply yields_random |]. intros x _.
  destruct (Qltb x Stream.PROB_RETURN_ITEM).
  - eapply yields_bind; [apply stream_create_event_shape |]. intros e He.
    ledger_step Hst He.
    apply yields_ret. exists (returns ++ [product_id item]).
    split; [apply included_snoc_both, Hreturns | exact H].
  - apply yields_ret. exists returns.
    split; [apply included_snoc_right, Hreturns | exact Hst].
Qed.

Lemma stream_browse_and_buy_products :
  wyields R any_memory any_memory
    (Stream.browse_and_buy product_catalog session_id user_id source) product_funnel.
Proof.
  unfold Stream.browse_and_buy.
  eapply wyields_seq; [apply wyields_rng, yields_randint; lia |].
  intros views _.
  eapply wyields_seq.
  { apply wyields_rng. apply yields_for_each with (I := browsed).
    - intros i st _ Hst. apply stream_view_step_products, Hst.
    - apply ledger_nil. }
  intros [events cart] Hbrowse. unfold browsed in Hbrowse. cbn [fst snd] in Hbrowse.
  eapply wyields_seq; [apply stream_checkout_products, Hbrowse |].
  intros [events' purchased] [Hledger Hbought]. cbn [fst snd] in *.
  eapply wyields_seq; [apply wyields_rng, stream_review_products, Hledger |].
  intros events'' (reviews & Hreviews & Hledger').
  apply wyields_rng. eapply yields_weaken.
  - apply (fun H => yields_for_each_prefix R
             (fun done evs =>
                exists returns,
                  included returns (map product_id done) /\
                  ledger evs (map product_id cart) (map product_id purchased)
                    reviews returns)
             _ purchased H []).
    + intros done item evs Hevs. apply stream_return_step_products, Hevs.
    + exists []. split; [apply included_nil | exact Hledger'].
  - cbn [app]. intros evs (returns & Hreturns & (Ha & Hb & Hw & Hr)).
    unfold product_funnel. rewrite Ha, Hb, Hw, Hr.
    split; [exact Hreturns | split; [exact Hreviews |]].
    apply included_map, Hbought.
Qed.

End StreamProducts.

Lemma stream_session_products (R : Prop) product_catalog :
  (product_catalog = [] -> R) ->
  wyields R (fun _ => True) (fun _ => True)
    (Stream.generate_user_session product_catalog)
    (fun events =>
       product_funnel events \/ exists e, events = [e] /\ has_type e "purchase").
Proof.
  intros HR.
  set (J := fun _ : list (string * Product) => True).
  assert (Hkeep : forall d, J d -> J d) by auto.
  assert (Hjourney : forall session_id user_id source,
    wyields R J J
      (Stream.browse_and_buy product_catalog session_id user_id source)
      (fun events =>
         product_funnel events \/ exists e, events = [e] /\ has_type e "purchase")).
  { intros session_id user_id source.
    eapply wyields_consequence.
    - apply (stream_browse_and_buy_products R product_catalog session_id user_id
               source HR).
    - auto.
    - auto.
    - intros events H. left. exact H. }
  unfold Stream.generate_user_session.
  eapply (wyields_bind R J J);
    [apply wyields_with_rng; [apply yields_uuid4 | exact Hkeep] | exact Hkeep |].
  intros u _.
  eapply (wyields_bind R J J);
    [apply wyields_with_rng; [apply yields_choice; discriminate | exact Hkeep]
    | exact Hkeep |].
  intros source _.
  eapply (wyields_bind R J J);
    [apply wyields_read_memory; exact Hkeep | exact Hkeep |].
  intros memory _.
  eapply (wyields_bind R J J) with (P := fun b : bool => b = true -> memory <> []).
  { destruct memory as [| m0 rest].
    - apply wyields_ret; [discriminate | exact Hkeep].
    - eapply (wyields_bind R J J J);
        [apply wyields_with_rng; [apply yields_random | exact Hkeep] | exact Hkeep |].
      intros r _. apply wyields_ret; [discriminate | exact Hkeep]. }
  { exact Hkeep. }
  intros [|] Hrepeat.
  - eapply (wyields_bind R J J).
    { apply wyields_with_rng; [apply yields_choice | exact Hkeep].
      intros E. exfalso. apply Hrepeat; [reflexivity | exact E]. }
    { exact Hkeep. }
    intros [user_id prev_product] _.
    eapply (wyields_bind R J J);
      [apply wyields_with_rng; [apply yields_random | exact Hkeep] | exact Hkeep |].
    intros r _. destruct (Qltb r (50 # 100)).
    + eapply (wyields_bind R J J).
      { apply wyields_with_rng; [apply stream_create_event_shape | exact Hkeep]. }
      { exact Hkeep. }
      intros e He. apply wyields_ret; [| exact Hkeep].
      right. exists e. split; [reflexivity |].
      eapply built_type, factory_event_built, He.
    + apply Hjourney.
  - eapply (wyields_bind R J J);
      [apply wyields_with_rng; [apply yields_randint; lia | exact Hkeep]
      | exact Hkeep |].
    intros n _. apply Hjourney.
Qed.

(** X14: product by product, a session never purchases a product more
    often than it added it to the cart, and never returns or reviews one more
    often than it purchased it: [random.sample] draws the purchases from the
    cart without replacement.  This holds for every backfill session and for
    every streaming session but the shortcut, whose single [purchase] has no
    cart. *)
Theorem sessions_keep_products_in_the_funnel :
  (forall product_catalog session_timestamp g events g',
     Backfill.generate_user_session product_catalog session_timestamp g
       = (Ret events, g') ->
     product_funnel events) /\
  (forall product_catalog w events w',
     Stream.generate_user_session product_catalog w = (Ret events, w') ->
     product_funnel events \/ exists e, events = [e] /\ has_type e "purchase").
Proof.
  split.
  - intros product_catalog session_timestamp g events g' E.
    apply (yields_returned True _ _ _ _ _
             (backfill_session_products True product_catalog session_timestamp
                (fun _ => I)) E).
  - intros product_catalog w events w' E.
    pose proof (stream_session_products True product_catalog (fun _ => I) w I) as H.
    apply (post_returned _ _ _ _ _ _ H) in E. apply E.
Qed.

Lemma sessions_keep_products_in_the_funnel_witness :
  product_funnel
    (match returned (Backfill.generate_user_session sample_catalog 1700000000
                       (oracle []))
     with Some events => events | None => [] end).
Proof.
  apply (proj1 sessions_keep_products_in_the_funnel sample_catalog 1700000000
           (oracle []) _
           (snd (Backfill.generate_user_session sample_catalog 1700000000
                   (oracle [])))).
  vm_compute. reflexivity.
Defined.
